(** * FinTrack: the dashboard, transaction and export routes of [server.js]

    A shallow embedding of [src/server.js] and [src/models/Transaction.js].
    The JavaScript built-ins the routes call (string methods, [parseInt],
    [parseFloat], [Date]) and the Mongoose operations on the [Transaction]
    model are given as executable functions; the route handlers are then
    transcribed on top of them.

    Conventions.
    - A JavaScript string is a [string] (a sequence of bytes, UTF-8).
    - A JavaScript Number that holds an amount is an exact rational ([Q]);
      [NaN] is [None].  The rounding of binary64 arithmetic and the two
      infinities are outside the model.
    - A [Date] is its time value: [Some t], [t] milliseconds since the
      epoch, or [None] for an Invalid Date.
    - The server's time zone is a fixed offset [tza] (milliseconds east of
      UTC); daylight-saving changes are outside the model. *)

From Stdlib Require Import ZArith QArith Qabs Qround List String Ascii Bool Lia.
From Stdlib Require Import Sorting.Sorted Sorting.Permutation.
Import ListNotations.
Local Open Scope string_scope.
Local Open Scope Z_scope.

(** ** Characters and strings *)

Module Js.

Definition chr (n : nat) : ascii := ascii_of_nat n.
Definition code (c : ascii) : Z := Z.of_nat (nat_of_ascii c).

(** The double quote, code unit 0x22. *)
Definition dquote : ascii := chr 34.
Definition newline : ascii := chr 10.

Definition str1 (c : ascii) : string := String c EmptyString.

Definition isDigit (c : ascii) : bool := (48 <=? code c) && (code c <=? 57).
Definition digitVal (c : ascii) : Z := code c - 48.

(** White space and line terminators that fit in one byte. *)
Definition isSpace (c : ascii) : bool :=
  let n := code c in
  (n =? 32) || ((9 <=? n) && (n <=? 13)).

Fixpoint trimStart (s : string) : string :=
  match s with
  | String c r => if isSpace c then trimStart r else s
  | EmptyString => EmptyString
  end.

Fixpoint rev_string (s acc : string) : string :=
  match s with
  | EmptyString => acc
  | String c r => rev_string r (String c acc)
  end.

Definition trimEnd (s : string) : string :=
  rev_string (trimStart (rev_string s "")) "".

Definition trim (s : string) : string := trimEnd (trimStart s).

(** [s.split(sep)] for a one-character separator: every occurrence cuts. *)
Fixpoint split_on (sep : ascii) (s : string) (cur : string) : list string :=
  match s with
  | EmptyString => [rev_string cur ""]
  | String c r =>
      if Ascii.eqb c sep then rev_string cur "" :: split_on sep r ""
      else split_on sep r (String c cur)
  end.

Definition split (s : string) (sep : ascii) : list string := split_on sep s "".

(** The replace call of the export route (regular expression: one double
    quote, flag g; replacement: two double quotes): every double quote of
    [s] becomes two. *)
Fixpoint replace_dquotes (s : string) : string :=
  match s with
  | EmptyString => EmptyString
  | String c r =>
      if Ascii.eqb c dquote
      then String dquote (String dquote (replace_dquotes r))
      else String c (replace_dquotes r)
  end.

(** [s.toUpperCase()] on the ASCII letters; other bytes are kept. *)
Definition upper (c : ascii) : ascii :=
  let n := code c in
  if (97 <=? n) && (n <=? 122) then chr (Z.to_nat (n - 32)) else c.

Fixpoint toUpperCase (s : string) : string :=
  match s with
  | EmptyString => EmptyString
  | String c r => String (upper c) (toUpperCase r)
  end.

(** [parts.join(',')]. *)
Fixpoint join (sep : string) (parts : list string) : string :=
  match parts with
  | [] => ""
  | [p] => p
  | p :: rest => p ++ sep ++ join sep rest
  end.

(** Decimal digits of a natural number, most significant first. *)
Fixpoint digits_fuel (fuel : nat) (n : Z) (acc : string) : string :=
  match fuel with
  | O => acc
  | S f =>
      let acc' := String (chr (Z.to_nat (48 + n mod 10))) acc in
      if n <? 10 then acc' else digits_fuel f (n / 10) acc'
  end.

Definition digits (n : Z) : string :=
  digits_fuel (S (Z.to_nat (Z.log2 n))) n "".

(** [String(n)] for an integer Number below 10^21. *)
Definition intToString (n : Z) : string :=
  if n <? 0 then String "-" (digits (- n)) else digits n.

Fixpoint repeat_char (c : ascii) (n : nat) : string :=
  match n with
  | O => ""
  | S k => String c (repeat_char c k)
  end.

(** [s.padStart(n, c)] with a one-character filler. *)
Definition padStart (s : string) (n : nat) (c : ascii) : string :=
  repeat_char c (n - String.length s)%nat ++ s.

(** *** Numbers read from strings *)

(** Value of a digit in radix up to 16, or [None]. *)
Definition radixDigit (radix : Z) (c : ascii) : option Z :=
  let n := code c in
  let v := if isDigit c then n - 48
           else if (97 <=? n) && (n <=? 102) then n - 87
           else if (65 <=? n) && (n <=? 70) then n - 55
           else 16 in
  if v <? radix then Some v else None.

(** The longest prefix of digits of [s] in [radix]: its value, how many
    digits it has, and the rest of [s]. *)
Fixpoint scanDigits (radix : Z) (s : string) (acc : Z) (n : nat)
  : Z * nat * string :=
  match s with
  | EmptyString => (acc, n, s)
  | String c r =>
      match radixDigit radix c with
      | Some v => scanDigits radix r (acc * radix + v) (S n)
      | None => (acc, n, s)
      end
  end.

Definition startsWith0x (s : string) : option string :=
  match s with
  | String "0" (String c r) =>
      if Ascii.eqb c "x" || Ascii.eqb c "X" then Some r else None
  | _ => None
  end.

(** [parseInt(s)] with no radix argument.  [None] is NaN. *)
Definition parseInt (s : string) : option Z :=
  let s1 := trimStart s in
  let '(sign, s2) :=
    match s1 with
    | String "-" r => (-1, r)
    | String "+" r => (1, r)
    | _ => (1, s1)
    end in
  let '(radix, s3) :=
    match startsWith0x s2 with
    | Some r => (16, r)
    | None => (10, s2)
    end in
  let '(v, n, _) := scanDigits radix s3 0 O in
  match n with
  | O => None
  | _ => Some (sign * v)
  end.

(** [parseInt(x)] where [x] may be [undefined]: the argument is first
    converted to the string undefined, which has no digits. *)
Definition parseInt_opt (x : option string) : option Z :=
  match x with
  | Some s => parseInt s
  | None => parseInt "undefined"
  end.

(** [m * 10^e] as a reduced rational. *)
Definition scale10 (m e : Z) : Q :=
  if 0 <=? e then Qred (Qmake (m * 10 ^ e) 1)
  else Qred (Qmake m (Z.to_pos (10 ^ (- e)))).

(** The exponent part of a decimal literal, when one is there. *)
Definition scanExponent (s : string) : Z * string :=
  match s with
  | String c r =>
      if Ascii.eqb c "e" || Ascii.eqb c "E" then
        let '(sg, r1) :=
          match r with
          | String "-" r' => (-1, r')
          | String "+" r' => (1, r')
          | _ => (1, r)
          end in
        let '(v, n, rest) := scanDigits 10 r1 0 O in
        match n with
        | O => (0, s)
        | _ => (sg * v, rest)
        end
      else (0, s)
  | EmptyString => (0, s)
  end.

(** The longest prefix of [s] that is an unsigned decimal literal (digits,
    an optional fraction, an optional exponent), with the rest of [s]. *)
Definition scanUnsignedDecimal (s : string) : option (Q * string) :=
  let '(ip, ni, r1) := scanDigits 10 s 0 O in
  let '(m, nf, r2) :=
    match r1 with
    | String "." r =>
        let '(m', nf', r') := scanDigits 10 r ip O in
        match ni, nf' with
        | O, O => (ip, O, r1)
        | _, _ => (m', nf', r')
        end
    | _ => (ip, O, r1)
    end in
  match ni, nf with
  | O, O => None
  | _, _ =>
      let '(e, r3) := scanExponent r2 in
      Some (scale10 m (e - Z.of_nat nf), r3)
  end.

Definition scanDecimal (s : string) : option (Q * string) :=
  let '(neg, s1) :=
    match s with
    | String "-" r => (true, r)
    | String "+" r => (false, r)
    | _ => (false, s)
    end in
  match scanUnsignedDecimal s1 with
  | Some (q, rest) => Some (if neg then Qopp q else q, rest)
  | None => None
  end.

(** [parseFloat(s)]: the longest decimal-literal prefix after leading white
    space; [None] is NaN.  The literal Infinity is outside the model. *)
Definition parseFloat (s : string) : option Q :=
  match scanDecimal (trimStart s) with
  | Some (q, _) => Some q
  | None => None
  end.

(** [Number(s)] for a string: white space is trimmed, the empty string is
    0, and the whole rest must be a decimal literal or a 0x literal.
    [None] is NaN.  The literal Infinity and the 0o and 0b prefixes are
    outside the model. *)
Definition stringToNumber (s : string) : option Q :=
  let t := trim s in
  match t with
  | EmptyString => Some 0%Q
  | _ =>
      match startsWith0x t with
      | Some r =>
          let '(v, n, rest) := scanDigits 16 r 0 O in
          match n, rest with
          | S _, EmptyString => Some (Qmake v 1)
          | _, _ => None
          end
      | None =>
          match scanDecimal t with
          | Some (q, EmptyString) => Some q
          | _ => None
          end
      end
  end.

(** Truncation towards zero (ToIntegerOrInfinity on a finite Number). *)
Definition truncate (q : Q) : Z := Z.quot (Qnum q) (Zpos (Qden q)).

End Js.

Import Js.

(** ** Dates

    The abstract operations of the ECMAScript Date object over integer
    time values. *)

Module JsDate.

Definition msPerDay : Z := 86400000.
Definition Day (t : Z) : Z := t / msPerDay.
Definition TimeWithinDay (t : Z) : Z := t mod msPerDay.

Definition isLeap (y : Z) : bool :=
  ((y mod 4 =? 0) && negb (y mod 100 =? 0)) || (y mod 400 =? 0).

Definition DaysInYear (y : Z) : Z := if isLeap y then 366 else 365.

(** Day number of January 1st of year [y]. *)
Definition DayFromYear (y : Z) : Z :=
  365 * (y - 1970) + (y - 1969) / 4 - (y - 1901) / 100 + (y - 1601) / 400.

(** The largest [y] with [DayFromYear y <= d]: an estimate from the mean
    length of a year, moved by at most one year. *)
Definition YearFromDay (d : Z) : Z :=
  let y := 1970 + (d * 400) / 146097 in
  if d <? DayFromYear y then y - 1
  else if DayFromYear (y + 1) <=? d then y + 1
  else y.

Definition YearFromTime (t : Z) : Z := YearFromDay (Day t).

Definition InLeapYear (t : Z) : Z :=
  if isLeap (YearFromTime t) then 1 else 0.

Definition DayWithinYear (t : Z) : Z := Day t - DayFromYear (YearFromTime t).

(** Day within the year on which month [m] (0 = January) begins. *)
Definition monthStart (leap m : Z) : Z :=
  match m with
  | 0 => 0
  | 1 => 31
  | 2 => 59 + leap
  | 3 => 90 + leap
  | 4 => 120 + leap
  | 5 => 151 + leap
  | 6 => 181 + leap
  | 7 => 212 + leap
  | 8 => 243 + leap
  | 9 => 273 + leap
  | 10 => 304 + leap
  | 11 => 334 + leap
  | _ => 365 + leap
  end.

Definition MonthFromTime (t : Z) : Z :=
  let d := DayWithinYear t in
  let l := InLeapYear t in
  if d <? monthStart l 1 then 0
  else if d <? monthStart l 2 then 1
  else if d <? monthStart l 3 then 2
  else if d <? monthStart l 4 then 3
  else if d <? monthStart l 5 then 4
  else if d <? monthStart l 6 then 5
  else if d <? monthStart l 7 then 6
  else if d <? monthStart l 8 then 7
  else if d <? monthStart l 9 then 8
  else if d <? monthStart l 10 then 9
  else if d <? monthStart l 11 then 10
  else 11.

Definition DateFromTime (t : Z) : Z :=
  DayWithinYear t - monthStart (InLeapYear t) (MonthFromTime t) + 1.

(** [MakeDay(year, month, date)] on integers: months outside 0..11 carry
    into the year, days outside the month carry into the next months. *)
Definition MakeDay (year month date : Z) : Z :=
  let ym := year + month / 12 in
  let mn := month mod 12 in
  DayFromYear ym + monthStart (if isLeap ym then 1 else 0) mn + date - 1.

Definition MakeDate (day time : Z) : Z := day * msPerDay + time.

Definition MakeTime (h m sec ms : Z) : Z :=
  h * 3600000 + m * 60000 + sec * 1000 + ms.

(** A time value, or [None] for NaN (an Invalid Date). *)
Definition date := option Z.

Definition TimeClip (t : Z) : date :=
  if 8640000000000000 <? Z.abs t then None else Some t.

Section Zone.

(** Offset of the server's local time from UTC, in milliseconds. *)
Variable tza : Z.

Definition LocalTime (t : Z) : Z := t + tza.
Definition UTC (t : Z) : Z := t - tza.

(** [new Date(year, month, day)]: [year] as converted by ToNumber, [month]
    an integer or NaN, [day] an integer; the fields are local time. *)
Definition newDate3 (year : option Q) (month : option Z) (day : Z) : date :=
  match year, month with
  | Some y, Some m =>
      let yi := truncate y in
      let yr := if (0 <=? yi) && (yi <=? 99) then 1900 + yi else yi in
      TimeClip (UTC (MakeDate (MakeDay yr m day) (MakeTime 0 0 0 0)))
  | _, _ => None
  end.

(** [d.getMonth()]. *)
Definition getMonth (d : date) : option Z :=
  match d with
  | Some t => Some (MonthFromTime (LocalTime t))
  | None => None
  end.

(** [d.setMonth(m)]: the new time value of [d]. *)
Definition setMonth (d : date) (m : option Z) : date :=
  match d, m with
  | Some t0, Some m' =>
      let t := LocalTime t0 in
      TimeClip (UTC (MakeDate (MakeDay (YearFromTime t) m' (DateFromTime t))
                              (TimeWithinDay t)))
  | _, _ => None
  end.

(** [d.setDate(n)]: the new time value of [d]. *)
Definition setDate (d : date) (n : Z) : date :=
  match d with
  | Some t0 =>
      let t := LocalTime t0 in
      TimeClip (UTC (MakeDate (MakeDay (YearFromTime t) (MonthFromTime t) n)
                              (TimeWithinDay t)))
  | None => None
  end.

End Zone.

(** Calendar fields (year, month 0..11, day of month) of a time value. *)
Definition fields (t : Z) : Z * Z * Z :=
  (YearFromTime t, MonthFromTime t, DateFromTime t).

(** The instant at which the calendar day [y]-[m]-[d] ([m] from 1) begins
    in UTC. *)
Definition utcMidnight (y m d : Z) : Z := MakeDate (MakeDay y (m - 1) d) 0.

End JsDate.

Import JsDate.

(** ** Formatting and parsing at the boundary *)

Module JsFormat.

Definition pow10_21 : Z := 10 ^ 21.

Fixpoint stripTrailingZeros (fuel : nat) (n : Z) : Z :=
  match fuel with
  | O => n
  | S f => if (n mod 10 =? 0) && negb (n =? 0)
           then stripTrailingZeros f (n / 10) else n
  end.

(** Number-to-string for an integer value of at least 10^21: the digits
    without their trailing zeros, a point after the first when there are
    several, and the exponent.  The digits are those of the exact value. *)
Definition exponentString (n : Z) : string :=
  let all := digits n in
  let sig := digits (stripTrailingZeros (String.length all) n) in
  let e := intToString (Z.of_nat (String.length all) - 1) in
  match sig with
  | String c EmptyString => String c ("e+" ++ e)
  | String c r => String c ("." ++ r ++ "e+" ++ e)
  | EmptyString => EmptyString
  end.

(** The first [k - 2] characters of [m], a point, and the last two. *)
Definition pointBeforeLastTwo (m : string) : string :=
  let k := String.length m in
  substring 0 (k - 2) m ++ "." ++ substring (k - 2) 2 m.

(** [x.toFixed(2)] on an exact value.  Below 10^21 the result is the sign,
    the integer [n] nearest to [100 x] (the larger one on a tie) written
    with at least three digits, and a point before the last two.  From
    10^21 on, toFixed hands over to the Number-to-string conversion, which
    writes such values with an exponent. *)
Definition toFixed2 (x : Q) : string :=
  let neg := Qle_bool x 0 && negb (Qeq_bool x 0) in
  let s := if neg then "-" else "" in
  let a := if neg then Qopp x else x in
  if Qle_bool (inject_Z pow10_21) a then s ++ exponentString (Qfloor a)
  else
    let n := Qfloor (a * 100 + (1 # 2)) in
    s ++ pointBeforeLastTwo (padStart (digits n) 3 "0").

Definition monthShort (m : Z) : string :=
  match m with
  | 0 => "Jan" | 1 => "Feb" | 2 => "Mar" | 3 => "Apr"
  | 4 => "May" | 5 => "Jun" | 6 => "Jul" | 7 => "Aug"
  | 8 => "Sep" | 9 => "Oct" | 10 => "Nov" | _ => "Dec"
  end.

(** The year as en-US prints it without an era: the year of the era. *)
Definition yearString (y : Z) : string :=
  intToString (if y <=? 0 then 1 - y else y).

(** [d.toLocaleDateString('en-US', { year: 'numeric', month: 'short',
    day: 'numeric' })] in the zone [tza]. *)
Definition toLocaleDateString (tza : Z) (d : JsDate.date) : string :=
  match d with
  | None => "Invalid Date"
  | Some t0 =>
      let t := LocalTime tza t0 in
      monthShort (MonthFromTime t) ++ " " ++ intToString (DateFromTime t)
        ++ ", " ++ yearString (YearFromTime t)
  end.

(** [d.toLocaleString('en-US', { month: 'short', year: 'numeric' })]. *)
Definition toLocaleMonthYear (tza : Z) (d : JsDate.date) : string :=
  match d with
  | None => "Invalid Date"
  | Some t0 =>
      let t := LocalTime tza t0 in
      monthShort (MonthFromTime t) ++ " " ++ yearString (YearFromTime t)
  end.

(** [encodeURIComponent]: letters, digits and the marks - _ . ! ~ * ' ( )
    stay, every other byte becomes a percent escape. *)
Definition isUnreserved (c : ascii) : bool :=
  let n := code c in
  isDigit c || ((65 <=? n) && (n <=? 90)) || ((97 <=? n) && (n <=? 122))
  || existsb (Z.eqb n) [45; 95; 46; 33; 126; 42; 39; 40; 41].

Definition hexDigit (v : Z) : ascii :=
  chr (Z.to_nat (if v <? 10 then 48 + v else 55 + v)).

Fixpoint encodeURIComponent (s : string) : string :=
  match s with
  | EmptyString => EmptyString
  | String c r =>
      if isUnreserved c then String c (encodeURIComponent r)
      else String "%" (String (hexDigit (code c / 16))
             (String (hexDigit (code c mod 16)) (encodeURIComponent r)))
  end.

(** Exactly [n] decimal digits at the head of [s]. *)
Fixpoint fixedDigits (n : nat) (s : string) (acc : Z) : option (Z * string) :=
  match n with
  | O => Some (acc, s)
  | S k =>
      match s with
      | String c r =>
          if isDigit c then fixedDigits k r (acc * 10 + digitVal c) else None
      | EmptyString => None
      end
  end.

Definition daysInMonth (y m : Z) : Z :=
  MakeDay y m 1 - MakeDay y (m - 1) 1.

(** [new Date(s)] for a string in one of the two forms an HTML form
    sends: the date-only form YYYY-MM-DD, read as UTC, and the form
    YYYY-MM-DDTHH:mm, read as local time.  Any other string is taken as
    unparseable; the further forms an engine may accept are outside the
    model. *)
Definition parseDate (tza : Z) (s : string) : JsDate.date :=
  match fixedDigits 4 s 0 with
  | Some (y, String "-" r1) =>
      match fixedDigits 2 r1 0 with
      | Some (m, String "-" r2) =>
          match fixedDigits 2 r2 0 with
          | Some (d, rest) =>
              if (1 <=? m) && (m <=? 12) && (1 <=? d) && (d <=? daysInMonth y m)
              then
                match rest with
                | EmptyString => TimeClip (MakeDate (MakeDay y (m - 1) d) 0)
                | String "T" r3 =>
                    match fixedDigits 2 r3 0 with
                    | Some (h, String ":" r4) =>
                        match fixedDigits 2 r4 0 with
                        | Some (mi, EmptyString) =>
                            if (h <=? 23) && (mi <=? 59) then
                              TimeClip (UTC tza (MakeDate (MakeDay y (m - 1) d)
                                                          (MakeTime h mi 0 0)))
                            else None
                        | _ => None
                        end
                    | _ => None
                    end
                | _ => None
                end
              else None
          | None => None
          end
      | _ => None
      end
  | _ => None
  end.

End JsFormat.

Import JsFormat.

(** ** The Transaction model ([models/Transaction.js]) and its store *)

Module Mongoose.

(** A stored document of the [Transaction] collection.  Every path has the
    type the schema casts it to; [createdAt] and [updatedAt] come from the
    option [timestamps: true].  The [_id] is a counter that stands for the
    ObjectId of the document; the id of a request is taken as it is after
    its cast. *)
Record Transaction := {
  _id : nat;
  userId : string;
  type : string;
  category : string;
  amount : Q;
  note : string;
  date : Z;
  createdAt : Z;
  updatedAt : Z
}.

(** The object handed to [new Transaction(...)]: a path may be undefined
    ([None]); [amount] may be NaN and [date] an Invalid Date (inner
    [None]). *)
Record TransactionInput := {
  in_userId : option string;
  in_type : option string;
  in_category : option string;
  in_amount : option (option Q);
  in_note : option string;
  in_date : option JsDate.date
}.

Inductive Path := PuserId | Ptype | Pcategory | Pamount | Pnote | Pdate.

Inductive ValidatorError :=
| Required (p : Path)
| Enum (p : Path)
| Min (p : Path)
| CastError (p : Path).

(** Schema defaults: [userId] has [default: 'default_user'], [note] has
    [default: '']; a default fills a path that is undefined. *)
Definition default_userId : string := "default_user".
Definition default_note : string := "".

Definition applyDefaults (i : TransactionInput) : TransactionInput :=
  {| in_userId := match in_userId i with
                  | Some u => Some u
                  | None => Some default_userId
                  end;
     in_type := in_type i;
     in_category := in_category i;
     in_amount := in_amount i;
     in_note := match in_note i with
                | Some n => Some n
                | None => Some default_note
                end;
     in_date := in_date i |}.

Definition isEmpty (s : string) : bool :=
  match s with EmptyString => true | _ => false end.

(** [required: true] on a String path: the value must be a string that is
    not empty. *)
Definition checkRequiredString (p : Path) (v : option string)
  : list ValidatorError :=
  match v with
  | None => [Required p]
  | Some s => if isEmpty s then [Required p] else []
  end.

(** [enum: ['income', 'expense']]. *)
Definition typeEnum : list string := ["income"; "expense"].

Definition inEnum (s : string) : bool :=
  existsb (String.eqb s) typeEnum.

Definition checkType (v : option string) : list ValidatorError :=
  match v with
  | None => [Required Ptype]
  | Some s =>
      if isEmpty s then [Required Ptype]
      else if inEnum s then [] else [Enum Ptype]
  end.

(** [min: 0.01]. *)
Definition minAmount : Q := 1 # 100.

Definition checkAmount (v : option (option Q)) : list ValidatorError :=
  match v with
  | None => [Required Pamount]
  | Some None => [CastError Pamount]
  | Some (Some q) => if Qle_bool minAmount q then [] else [Min Pamount]
  end.

Definition checkDate (v : option JsDate.date) : list ValidatorError :=
  match v with
  | None => [Required Pdate]
  | Some None => [CastError Pdate]
  | Some (Some _) => []
  end.

(** The errors [save()] collects for a document built from [i]: casting
    failures and the validators of every path, in schema order. *)
Definition validate (i : TransactionInput) : list ValidatorError :=
  let d := applyDefaults i in
  (checkRequiredString PuserId (in_userId d)
   ++ checkType (in_type d)
   ++ checkRequiredString Pcategory (in_category d)
   ++ checkAmount (in_amount d)
   ++ checkDate (in_date d))%list.

(** The collection: documents in insertion order, and the next [_id]. *)
Record Store := {
  docs : list Transaction;
  nextId : nat
}.

Inductive Error :=
| ValidationError (errs : list ValidatorError)
| QueryCastError (p : Path)
| BSONError.

Inductive result (A : Type) :=
| Ok (a : A)
| Throw (e : Error).
Arguments Ok {A} a.
Arguments Throw {A} e.

Definition bind {A B} (r : result A) (k : A -> result B) : result B :=
  match r with
  | Ok a => k a
  | Throw e => Throw e
  end.

(** The document [save()] writes for a valid input at time [now]. *)
Definition toDocument (id : nat) (now : Z) (i : TransactionInput)
  : option Transaction :=
  match applyDefaults i with
  | {| in_userId := Some u; in_type := Some ty; in_category := Some c;
       in_amount := Some (Some a); in_note := Some n;
       in_date := Some (Some d) |} =>
      Some {| _id := id; userId := u; type := ty; category := c;
              amount := a; note := trim n; date := d;
              createdAt := now; updatedAt := now |}
  | _ => None
  end.

(** [new Transaction(i).save()]: validation runs first; a valid document
    is appended with a fresh [_id]. *)
Definition save (now : Z) (i : TransactionInput) (s : Store)
  : result (Store * Transaction) :=
  match validate i, toDocument (nextId s) now i with
  | [], Some d =>
      Ok ({| docs := (docs s ++ [d])%list; nextId := S (nextId s) |}, d)
  | errs, _ => Throw (ValidationError errs)
  end.

(** *** Queries *)

(** A filter object as the routes build it: [userId] is always there, the
    other conditions may be absent. *)
Record Filter := {
  f_id : option nat;
  f_userId : string;
  f_date : option (JsDate.date * JsDate.date);
  f_category : option string
}.

Definition byOwner (u : string) : Filter :=
  {| f_id := None; f_userId := u; f_date := None; f_category := None |}.

Definition byIdAndOwner (id : nat) (u : string) : Filter :=
  {| f_id := Some id; f_userId := u; f_date := None; f_category := None |}.

(** A filter after Mongoose has cast it to the schema: the bounds of a date
    condition are time values. *)
Record CastFilter := {
  cf_id : option nat;
  cf_userId : string;
  cf_date : option (Z * Z);
  cf_category : option string
}.

(** Casting a filter fails on an Invalid Date. *)
Definition castFilter (f : Filter) : result CastFilter :=
  match f_date f with
  | None =>
      Ok {| cf_id := f_id f; cf_userId := f_userId f; cf_date := None;
            cf_category := f_category f |}
  | Some (Some lo, Some hi) =>
      Ok {| cf_id := f_id f; cf_userId := f_userId f;
            cf_date := Some (lo, hi); cf_category := f_category f |}
  | Some _ => Throw (QueryCastError Pdate)
  end.

(** Does a document satisfy a cast filter?  The date condition is
    [{ $gte: lo, $lte: hi }]. *)
Definition matches (f : CastFilter) (d : Transaction) : bool :=
  match cf_id f with Some i => Nat.eqb (_id d) i | None => true end
  && String.eqb (userId d) (cf_userId f)
  && match cf_date f with
     | Some (lo, hi) => (lo <=? date d) && (date d <=? hi)
     | None => true
     end
  && match cf_category f with
     | Some c => String.eqb (category d) c
     | None => true
     end.

(** [Transaction.find(filter)], in the order of the collection. *)
Definition find (f : Filter) (s : Store) : result (list Transaction) :=
  bind (castFilter f) (fun cf => Ok (List.filter (matches cf) (docs s))).

(** [Transaction.findOne(filter)]. *)
Definition findOne (f : Filter) (s : Store) : result (option Transaction) :=
  bind (castFilter f) (fun cf => Ok (List.find (matches cf) (docs s))).

(** Sorting: insertion into a sorted list, after the elements that compare
    equal, so that ties stay in the order of the collection. *)
Section Sort.
Context {A : Type} (le : A -> A -> bool).

Fixpoint insertSorted (x : A) (l : list A) : list A :=
  match l with
  | [] => [x]
  | y :: r => if le y x then y :: insertSorted x r else x :: y :: r
  end.

Definition sortBy (l : list A) : list A :=
  fold_left (fun acc x => insertSorted x acc) l [].
End Sort.

(** [.sort({ date: -1, createdAt: -1 })]: [a] may stand before [b]. *)
Definition dateCreatedDesc (a b : Transaction) : bool :=
  (date b <? date a) || ((date a =? date b) && (createdAt b <=? createdAt a)).

(** [.sort({ date: 1 })]. *)
Definition dateAsc (a b : Transaction) : bool := date a <=? date b.

(** *** The aggregation pipeline

    Mongoose sends the stages of [aggregate] to the server as they are:
    nothing in them is cast to the schema.  The server compares values of
    different BSON types as different. *)

Inductive bson :=
| BString (s : string)
| BObjectId (hex : string).

Definition bson_eqb (a b : bson) : bool :=
  match a, b with
  | BString x, BString y => String.eqb x y
  | BObjectId x, BObjectId y => String.eqb x y
  | _, _ => false
  end.

Definition isHex (c : ascii) : bool :=
  match radixDigit 16 c with Some _ => true | None => false end.

Fixpoint allHex (s : string) : bool :=
  match s with
  | EmptyString => true
  | String c r => isHex c && allHex r
  end.

Definition lower (c : ascii) : ascii :=
  let n := code c in
  if (65 <=? n) && (n <=? 90) then chr (Z.to_nat (n + 32)) else c.

Fixpoint toLowerCase (s : string) : string :=
  match s with
  | EmptyString => EmptyString
  | String c r => String (lower c) (toLowerCase r)
  end.

(** [new mongoose.Types.ObjectId(s)] for a string: 24 hexadecimal digits
    give an ObjectId, anything else throws. *)
Definition ObjectId (s : string) : result bson :=
  if Nat.eqb (String.length s) 24 && allHex s
  then Ok (BObjectId (toLowerCase s))
  else Throw BSONError.

(** The BSON value stored at [userId]: the schema type is String. *)
Definition stored_userId (d : Transaction) : bson := BString (userId d).

(** [$match: { userId: uid, date: { $gte: since } }].  No stored date
    compares with an Invalid Date. *)
Definition matchStage (uid : bson) (since : JsDate.date)
  (l : list Transaction) : list Transaction :=
  List.filter
    (fun d => bson_eqb (stored_userId d) uid
              && match since with
                 | Some t => t <=? date d
                 | None => false
                 end) l.

(** A document that leaves [$group]: the key [_id: { year, month }] and the
    two sums. *)
Record MonthRow := {
  g_year : Z;
  g_month : Z;
  totalIncome : Q;
  totalExpense : Q
}.

(** [$year] and [$month] read the date in UTC; [$month] counts from 1. *)
Definition year_of (d : Transaction) : Z := YearFromTime (date d).
Definition month_of (d : Transaction) : Z := MonthFromTime (date d) + 1.

(** [$cond: [{ $eq: ["$type", k] }, "$amount", 0]]. *)
Definition condAmount (k : string) (d : Transaction) : Q :=
  if String.eqb (type d) k then amount d else 0%Q.

Fixpoint accumulate (d : Transaction) (rows : list MonthRow) : list MonthRow :=
  match rows with
  | [] =>
      [{| g_year := year_of d; g_month := month_of d;
          totalIncome := (0 + condAmount "income" d)%Q;
          totalExpense := (0 + condAmount "expense" d)%Q |}]
  | r :: rest =>
      if (g_year r =? year_of d) && (g_month r =? month_of d)
      then {| g_year := g_year r; g_month := g_month r;
              totalIncome := (totalIncome r + condAmount "income" d)%Q;
              totalExpense := (totalExpense r + condAmount "expense" d)%Q |}
           :: rest
      else r :: accumulate d rest
  end.

(** [$group] with [$sum] accumulators. *)
Definition groupStage (l : list Transaction) : list MonthRow :=
  fold_left (fun rows d => accumulate d rows) l [].

(** [$sort: { "_id.year": 1, "_id.month": 1 }]. *)
Definition rowLe (a b : MonthRow) : bool :=
  (g_year a <? g_year b) || ((g_year a =? g_year b) && (g_month a <=? g_month b)).

Definition sortStage (rows : list MonthRow) : list MonthRow := sortBy rowLe rows.

(** The pipeline of the dashboard route. *)
Definition aggregate (uid : bson) (since : JsDate.date) (s : Store)
  : list MonthRow :=
  sortStage (groupStage (matchStage uid since (docs s))).

(** *** Updates and deletes *)

(** The update object of the update route.  [type], [category] and [note]
    may be undefined and are then left out of the update; [amount] may be
    NaN and [date] an Invalid Date. *)
Record Update := {
  u_type : option string;
  u_category : option string;
  u_amount : option Q;
  u_note : option string;
  u_date : JsDate.date
}.

Definition orElse {A} (o : option A) (d : A) : A :=
  match o with Some a => a | None => d end.

(** The update after Mongoose has cast it to the schema. *)
Record CastUpdate := {
  cu_type : option string;
  cu_category : option string;
  cu_amount : Q;
  cu_note : option string;
  cu_date : Z
}.

(** Casting fails on NaN and on an Invalid Date; the setter [trim] of
    [note] runs. *)
Definition castUpdate (u : Update) : result CastUpdate :=
  match u_amount u, u_date u with
  | None, _ => Throw (QueryCastError Pamount)
  | _, None => Throw (QueryCastError Pdate)
  | Some a, Some t =>
      Ok {| cu_type := u_type u; cu_category := u_category u;
            cu_amount := a; cu_note := option_map trim (u_note u);
            cu_date := t |}
  end.

(** Writing a cast update into a document.  Validators do not run on
    [findOneAndUpdate] unless the option [runValidators] is given, and the
    route gives no options. *)
Definition applyUpdate (now : Z) (u : CastUpdate) (d : Transaction)
  : Transaction :=
  {| _id := _id d;
     userId := userId d;
     type := orElse (cu_type u) (type d);
     category := orElse (cu_category u) (category d);
     amount := cu_amount u;
     note := orElse (cu_note u) (note d);
     date := cu_date u;
     createdAt := createdAt d;
     updatedAt := now |}.

Fixpoint replaceFirst (p : Transaction -> bool) (d' : Transaction)
  (l : list Transaction) : list Transaction :=
  match l with
  | [] => []
  | d :: r => if p d then d' :: r else d :: replaceFirst p d' r
  end.

Fixpoint removeFirst (p : Transaction -> bool) (l : list Transaction)
  : list Transaction :=
  match l with
  | [] => []
  | d :: r => if p d then r else d :: removeFirst p r
  end.

(** [Transaction.findOneAndUpdate(filter, update)]: the first match is
    rewritten; the answer is the document as it was, or null. *)
Definition findOneAndUpdate (now : Z) (f : Filter) (u : Update) (s : Store)
  : result (Store * option Transaction) :=
  bind (castFilter f) (fun cf =>
  bind (castUpdate u) (fun cu =>
  match List.find (matches cf) (docs s) with
  | None => Ok (s, None)
  | Some d =>
      Ok ({| docs := replaceFirst (matches cf) (applyUpdate now cu d) (docs s);
             nextId := nextId s |}, Some d)
  end)).

(** [Transaction.findOneAndDelete(filter)]. *)
Definition findOneAndDelete (f : Filter) (s : Store)
  : result (Store * option Transaction) :=
  bind (castFilter f) (fun cf =>
  match List.find (matches cf) (docs s) with
  | None => Ok (s, None)
  | Some d =>
      Ok ({| docs := removeFirst (matches cf) (docs s);
             nextId := nextId s |}, Some d)
  end).

End Mongoose.

Import Mongoose.

(** ** The routes ([server.js]) *)

Module Server.

Definition CATEGORIES : list string :=
  ["Food"; "Transport"; "Bills"; "Shopping"; "Salary"; "Investment"; "Other"].

(** [{ income, expense, net }]. *)
Record Summary := {
  income : Q;
  expense : Q;
  net : Q
}.

(** [calculateSummary]: two filter-then-reduce passes over the array. *)
Definition calculateSummary (transactions : list Transaction) : Summary :=
  let income :=
    fold_left (fun sum t => (sum + amount t)%Q)
      (List.filter (fun t => String.eqb (type t) "income") transactions) 0%Q in
  let expense :=
    fold_left (fun sum t => (sum + amount t)%Q)
      (List.filter (fun t => String.eqb (type t) "expense") transactions) 0%Q in
  let net := (income - expense)%Q in
  {| income := income; expense := expense; net := net |}.






(** [formatters.date]. *)
Definition formatDate (tza : Z) (t : Z) : string :=
  toLocaleDateString tza (Some t).

(** *** Requests and responses *)

(** [req.query] of the dashboard: a parameter is absent or a string. *)
Record Query := {
  q_month : option string;
  q_category : option string
}.

(** [req.body] of the add and update routes. *)
Record Body := {
  b_type : option string;
  b_category : option string;
  b_amount : option string;
  b_note : option string;
  b_date : option string
}.

(** An entry of [monthlyBreakdown]. *)
Record MonthEntry := {
  label : string;
  m_income : Q;
  m_expense : Q;
  m_net : Q;
  monthKey : string
}.

(** What the dashboard hands to the view [index]. *)
Record IndexView := {
  v_transactions : list Transaction;
  v_summary : Summary;
  v_monthlyBreakdown : list MonthEntry;
  v_categories : list string;
  v_editTransaction : option Transaction;
  v_query : Query
}.

Inductive Response :=
| Redirect (url : string)
    (** [res.redirect(url)] *)
| RedirectError (e : Error)
    (** [res.redirect('/?error=' + encodeURIComponent(err.message))] *)
| Render (v : IndexView)
    (** [res.render('index', v)] *)
| Send (status : Z) (body : string)
    (** [res.status(status).send(body)] *)
| ServerError (e : Error)
    (** [res.status(500).send('Server Error: ' + err.message)] *)
| SendCsv (body : string).
    (** status 200, Content-Type text/csv, attachment fintrack_export.csv *)

(** A JavaScript string is truthy when it is defined and not empty. *)
Definition truthy (v : option string) : bool :=
  match v with
  | Some s => negb (isEmpty s)
  | None => false
  end.

Definition loginRedirect : Response :=
  Redirect ("/login?error="
            ++ encodeURIComponent "Please log in to view the dashboard.").

(** [isAuthenticated]: the session must carry a user id. *)
Definition isAuthenticated (session : option string) : option string :=
  match session with
  | Some u => if isEmpty u then None else Some u
  | None => None
  end.

(** *** GET / : the filter object *)

(** The date condition for a month token. *)
Definition monthRange (tza : Z) (token : string)
  : JsDate.date * JsDate.date :=
  let parts := split token "-" in
  let year := nth 0 parts "" in
  let month := nth_error parts 1 in
  let startDate :=
    newDate3 tza (stringToNumber year)
             (option_map (fun m => m - 1) (parseInt_opt month)) 1 in
  let endDate :=
    newDate3 tza (stringToNumber year) (parseInt_opt month) 0 in
  (startDate, endDate).

Definition buildFilter (tza : Z) (userId : string) (queryParams : Query)
  : Filter :=
  {| f_id := None;
     f_userId := userId;
     f_date :=
       match q_month queryParams with
       | Some m =>
           if truthy (Some m) && negb (String.eqb m "all")
           then Some (monthRange tza m) else None
       | None => None
       end;
     f_category :=
       match q_category queryParams with
       | Some c =>
           if truthy (Some c) && negb (String.eqb c "all")
           then Some c else None
       | None => None
       end |}.

(** *** GET / : the monthly breakdown *)

(** [twelveMonthsAgo]: [now], then [setMonth(getMonth() - 11)], then
    [setDate(1)]. *)
Definition twelveMonthsAgo (tza : Z) (now : Z) : JsDate.date :=
  let d0 := Some now in
  let d1 := setMonth tza d0 (option_map (fun m => m - 11) (getMonth tza d0)) in
  setDate tza d1 1.

Definition toMonthEntry (tza : Z) (data : MonthRow) : MonthEntry :=
  let date := newDate3 tza (Some (inject_Z (g_year data)))
                       (Some (g_month data - 1)) 1 in
  {| label := toLocaleMonthYear tza date;
     m_income := totalIncome data;
     m_expense := totalExpense data;
     m_net := (totalIncome data - totalExpense data)%Q;
     monthKey := intToString (g_year data) ++ "-"
                 ++ padStart (intToString (g_month data)) 2 "0" |}.

(** The dashboard route.  [tza] is the server's zone, [now] the clock.
    The lookup of [currentUser] in the [User] collection, which the route
    only hands on to the view, is left out. *)
Definition getDashboard (tza now : Z) (session : option string)
  (queryParams : Query) (s : Store) : Response :=
  match isAuthenticated session with
  | None => loginRedirect
  | Some userId =>
      let filter := buildFilter tza userId queryParams in
      match find filter s with
      | Throw e => ServerError e
      | Ok found =>
          let transactions := sortBy dateCreatedDesc found in
          let summary := calculateSummary transactions in
          match ObjectId userId with
          | Throw e => ServerError e
          | Ok oid =>
              let monthlyData := aggregate oid (twelveMonthsAgo tza now) s in
              Render {| v_transactions := transactions;
                        v_summary := summary;
                        v_monthlyBreakdown := map (toMonthEntry tza) monthlyData;
                        v_categories := CATEGORIES;
                        v_editTransaction := None;
                        v_query := queryParams |}
          end
      end
  end.

(** *** POST /add *)

Definition errorRedirect (message : string) : Response :=
  Redirect ("/?error=" ++ encodeURIComponent message).

Definition postAdd (tza now : Z) (session : option string) (body : Body)
  (s : Store) : Store * Response :=
  match isAuthenticated session with
  | None => (s, loginRedirect)
  | Some userId =>
      match b_amount body, b_date body with
      | Some amount, Some date =>
          if negb (truthy (b_type body)) || negb (truthy (b_category body))
             || negb (truthy (Some amount)) || negb (truthy (Some date))
          then (s, errorRedirect "Missing required fields.")
          else
            let newTransaction :=
              {| in_userId := Some userId;
                 in_type := b_type body;
                 in_category := b_category body;
                 in_amount := Some (parseFloat amount);
                 in_note := b_note body;
                 in_date := Some (parseDate tza date) |} in
            match save now newTransaction s with
            | Ok (s', _) => (s', Redirect "/")
            | Throw e => (s, RedirectError e)
            end
      | _, _ => (s, errorRedirect "Missing required fields.")
      end
  end.

(** *** GET /edit/:id *)

Definition getEdit (session : option string) (id : nat) (s : Store)
  : Response :=
  match isAuthenticated session with
  | None => loginRedirect
  | Some userId =>
      match findOne (byIdAndOwner id userId) s with
      | Throw _ => Send 500 "Server Error"
      | Ok None => Send 404 "Transaction not found or unauthorized."
      | Ok (Some editTransaction) =>
          match find (byOwner userId) s with
          | Throw _ => Send 500 "Server Error"
          | Ok found =>
              let transactions := sortBy dateCreatedDesc found in
              Render {| v_transactions := transactions;
                        v_summary := calculateSummary transactions;
                        v_monthlyBreakdown := [];
                        v_categories := CATEGORIES;
                        v_editTransaction := Some editTransaction;
                        v_query := {| q_month := None; q_category := None |} |}
          end
      end
  end.

(** *** POST /update/:id *)

(** [parseFloat(x)] and [new Date(x)] where [x] may be undefined. *)
Definition parseFloat_opt (x : option string) : option Q :=
  match x with
  | Some v => parseFloat v
  | None => None
  end.

Definition parseDate_opt (tza : Z) (x : option string) : JsDate.date :=
  match x with
  | Some v => parseDate tza v
  | None => None
  end.

Definition postUpdate (tza now : Z) (session : option string) (id : nat)
  (body : Body) (s : Store) : Store * Response :=
  match isAuthenticated session with
  | None => (s, loginRedirect)
  | Some userId =>
      match findOneAndUpdate now (byIdAndOwner id userId)
              {| u_type := b_type body;
                 u_category := b_category body;
                 u_amount := parseFloat_opt (b_amount body);
                 u_note := b_note body;
                 u_date := parseDate_opt tza (b_date body) |} s with
      | Throw e => (s, RedirectError e)
      | Ok (_, None) => (s, errorRedirect "Update failed.")
      | Ok (s', Some _) => (s', Redirect "/")
      end
  end.

(** *** POST /delete/:id *)

Definition postDelete (session : option string) (id : nat) (s : Store)
  : Store * Response :=
  match isAuthenticated session with
  | None => (s, loginRedirect)
  | Some userId =>
      match findOneAndDelete (byIdAndOwner id userId) s with
      | Throw e => (s, RedirectError e)
      | Ok (_, None) => (s, errorRedirect "Delete failed.")
      | Ok (s', Some _) => (s', Redirect "/")
      end
  end.

(** *** GET /export/csv *)

Definition csvHeader : string :=
  "Date,Type,Category,Amount,Note,Created At" ++ str1 newline.

(** A quoted field: the text between double quotes, its own double quotes
    doubled. *)
Definition quoted (s : string) : string :=
  str1 dquote ++ replace_dquotes s ++ str1 dquote.

Definition csvRow (tza : Z) (t : Transaction) : string :=
  join "," [ formatDate tza (date t);
             toUpperCase (type t);
             quoted (category t);
             toFixed2 (amount t);
             quoted (note t);
             formatDate tza (createdAt t) ] ++ str1 newline.

(** The loop [transactions.forEach(t => { csv += ... })]. *)
Definition buildCsv (tza : Z) (transactions : list Transaction) : string :=
  fold_left (fun csv t => csv ++ csvRow tza t) transactions csvHeader.

Definition getExportCsv (tza : Z) (session : option string) (s : Store)
  : Response :=
  match isAuthenticated session with
  | None => loginRedirect
  | Some userId =>
      match find (byOwner userId) s with
      | Throw _ => errorRedirect "Failed to export."
      | Ok found =>
          let transactions := sortBy dateAsc found in
          if Nat.eqb (List.length transactions) 0
          then errorRedirect "No transactions to export."
          else SendCsv (buildCsv tza transactions)
      end
  end.

End Server.

Import Server.

(** ** What the specification says, for comparison with the routes *)

Module Spec.


(** The first calendar day (local midnight) of the month that is 11 months
    before the month of [now]. *)
Definition sinceDate (tza now : Z) : Z :=
  let t := LocalTime tza now in
  UTC tza (MakeDate (MakeDay (YearFromTime t) (MonthFromTime t - 11) 1) 0).

(** Does the local calendar day of [t] lie in month [m] (from 1) of year
    [y]? *)
Definition inMonth (tza y m t : Z) : bool :=
  (YearFromTime (LocalTime tza t) =? y)
  && (MonthFromTime (LocalTime tza t) =? m - 1).

(** The transactions of one owner, in the order of the collection. *)
Definition ownedBy (u : string) (s : Store) : list Transaction :=
  List.filter (fun d => String.eqb (userId d) u) (docs s).

(** The store without the transactions of one owner. *)
Definition withoutOwner (u : string) (s : Store) : Store :=
  {| docs := List.filter (fun d => negb (String.eqb (userId d) u)) (docs s);
     nextId := nextId s |}.

(** The invariants of a stored transaction: a positive amount of at least
    0.01 and a kind that is income or expense. *)
Definition invariant (t : Transaction) : bool :=
  Qle_bool minAmount (amount t) && inEnum (type t).

(** Decimal digits only. *)
Fixpoint allDigits (s : string) : bool :=
  match s with
  | EmptyString => true
  | String c r => isDigit c && allDigits r
  end.

(** Digits, then a point, then exactly two digits. *)
Fixpoint pointThenTwo (s : string) : bool :=
  match s with
  | EmptyString => false
  | String c r =>
      if Ascii.eqb c "." then
        match r with
        | String a (String b EmptyString) => isDigit a && isDigit b
        | _ => false
        end
      else isDigit c && pointThenTwo r
  end.

(** A decimal numeral with exactly two digits after the point: an
    optional minus sign, one digit or more, a point, two digits. *)
Definition twoDecimals (s : string) : bool :=
  match s with
  | EmptyString => false
  | String c r =>
      if Ascii.eqb c "-" then
        match r with
        | String c' r' => isDigit c' && pointThenTwo r'
        | EmptyString => false
        end
      else isDigit c && pointThenTwo r
  end.




End Spec.

(** ** The scenarios of the specification *)

Module Scenario.

(** Two owners: the 24 hexadecimal digits of a user's [_id], as the
    session holds them. *)
Definition U : string := "65a1f0c2e4b0a1b2c3d4e5f6".
Definition V : string := "65a1f0c2e4b0a1b2c3d4e5f7".

Definition tx (id : nat) (owner kind : string) (a : Q) (day : Z)
  : Transaction :=
  {| _id := id; userId := owner; type := kind; category := "Food";
     amount := a; note := ""; date := day;
     createdAt := utcMidnight 2024 2 2; updatedAt := utcMidnight 2024 2 2 |}.

Definition emptyStore : Store := {| docs := []; nextId := 0 |}.

(** [{income,500,2024-01-15}, {expense,200,2024-01-20},
    {expense,50,2024-02-01}] for owner [U]. *)
Definition store1 : Store :=
  {| docs := [ tx 0 U "income" 500 (utcMidnight 2024 1 15);
               tx 1 U "expense" 200 (utcMidnight 2024 1 20);
               tx 2 U "expense" 50 (utcMidnight 2024 2 1) ];
     nextId := 3 |}.

Definition noFilters : Query := {| q_month := None; q_category := None |}.

Definition monthFilter (m : string) : Query :=
  {| q_month := Some m; q_category := None |}.

(** Noon UTC on 2024-02-10. *)
Definition now1 : Z := utcMidnight 2024 2 10 + 12 * 3600000.

(** The month filter: a server five hours east of UTC; the form of the
    add route filled in for an expense of 50 on 2024-03-31, and the store
    after [U] has posted it there; the same expense entered for noon, and
    the store after [U] has posted it on a server at UTC. *)
Definition plus5h : Z := 5 * 3600000.

Definition march31Body : Body :=
  {| b_type := Some "expense"; b_category := Some "Food";
     b_amount := Some "50"; b_note := None; b_date := Some "2024-03-31" |}.

Definition store2 : Store :=
  fst (postAdd plus5h now1 (Some U) march31Body emptyStore).

Definition march31NoonBody : Body :=
  {| b_type := Some "expense"; b_category := Some "Food";
     b_amount := Some "50"; b_note := None;
     b_date := Some "2024-03-31T12:00" |}.

Definition store6 : Store :=
  fst (postAdd 0 now1 (Some U) march31NoonBody emptyStore).

(** The trailing window: a transaction of [U] in the middle of February
    2023. *)
Definition store3 : Store :=
  {| docs := [ tx 0 U "income" 75 (utcMidnight 2023 2 15) ]; nextId := 1 |}.

(** Updates: the form of the update route with a negative amount, and
    with a kind outside the enum. *)
Definition negativeBody : Body :=
  {| b_type := Some "expense"; b_category := Some "Food";
     b_amount := Some "-5"; b_note := None; b_date := Some "2024-01-20" |}.

Definition giftBody : Body :=
  {| b_type := Some "gift"; b_category := Some "Food";
     b_amount := Some "200"; b_note := None; b_date := Some "2024-01-20" |}.

(** Isolation: the transactions of [U] and one of [V]. *)
Definition store4 : Store :=
  {| docs := (docs store1 ++ [ tx 3 V "income" 900 (utcMidnight 2024 1 5) ])%list;
     nextId := 4 |}.

(** Export: the category of the specification (Cafe, with its accent,
    followed by the word Special between double quotes); the form of the
    add route with the amount 1e21, and the store after [U] has posted
    it. *)
Definition cafeSpecial : string :=
  "Café " ++ str1 dquote ++ "Special" ++ str1 dquote.



End Scenario.

Import Spec Scenario.

(** ** The email check of the register and login routes *)

Module Email.

(** The text of an email is a sequence of UTF-16 code units, the unit the
    regular expression of [validateEmail] works on. *)
Definition units (s : string) : list Z := map code (list_ascii_of_string s).

Definition at_sign : Z := 64.
Definition dot : Z := 46.

(** The class [\s]: white space and line terminators. *)
Definition isWhiteSpace (c : Z) : bool :=
  ((9 <=? c) && (c <=? 13)) || (c =? 32) || (c =? 160) || (c =? 5760)
  || ((8192 <=? c) && (c <=? 8202)) || (c =? 8232) || (c =? 8233)
  || (c =? 8239) || (c =? 8287) || (c =? 12288) || (c =? 65279).

(** The class [[^\s@]]. *)
Definition notSpaceNorAt (c : Z) : bool :=
  negb (isWhiteSpace c) && negb (c =? at_sign).

(** The regular expressions the check needs: one or more units of a class,
    one given unit, and one expression after another. *)
Inductive regex :=
| OneOrMore (cls : Z -> bool)
| Lit (c : Z)
| Seq (r1 r2 : regex).

(** Zero or more units of [cls], the longest run first, then [k] on the
    rest. *)
Fixpoint many (cls : Z -> bool) (s : list Z) (k : list Z -> bool) : bool :=
  match s with
  | c :: t => (cls c && many cls t k) || k s
  | [] => k s
  end.

(** Matching with backtracking: [k] says whether the rest of the input
    can complete the match. *)
Fixpoint matchFrom (r : regex) (s : list Z) (k : list Z -> bool) : bool :=
  match r with
  | OneOrMore cls =>
      match s with
      | c :: t => cls c && many cls t k
      | [] => false
      end
  | Lit c =>
      match s with
      | x :: t => (x =? c) && k t
      | [] => false
      end
  | Seq r1 r2 => matchFrom r1 s (fun t => matchFrom r2 t k)
  end.

(** The words an expression describes. *)
Fixpoint lang (r : regex) (u : list Z) : Prop :=
  match r with
  | OneOrMore cls => u <> [] /\ Forall (fun c => cls c = true) u
  | Lit c => u = [c]
  | Seq r1 r2 => exists u1 u2, u = (u1 ++ u2)%list /\ lang r1 u1 /\ lang r2 u2
  end.

Definition atEnd (s : list Z) : bool :=
  match s with [] => true | _ => false end.

(** [re.test(s)] for an expression between the anchors [^] and [$]. *)
Definition test (r : regex) (s : list Z) : bool := matchFrom r s atEnd.

(** [/^[^\s@]+@[^\s@]+\.[^\s@]+$/]. *)
Definition re : regex :=
  Seq (OneOrMore notSpaceNorAt)
      (Seq (Lit at_sign)
           (Seq (OneOrMore notSpaceNorAt)
                (Seq (Lit dot) (OneOrMore notSpaceNorAt)))).

(** [toLowerCase] on the letters A to Z; other units are kept (the
    mapping of letters outside ASCII is outside the model). *)
Definition lowerUnit (c : Z) : Z :=
  if (65 <=? c) && (c <=? 90) then c + 32 else c.

(** [String(email)]: an email that is undefined becomes the text
    undefined. *)
Definition toText (email : option (list Z)) : list Z :=
  match email with
  | Some s => s
  | None => units "undefined"
  end.

(** [validateEmail]. *)
Definition validateEmail (email : option (list Z)) : bool :=
  test re (map lowerUnit (toText email)).

(** The shape the expression describes: a local part, an at sign, a
    domain, a dot and an ending, the three parts non-empty and free of
    white space and at signs. *)
Definition part (u : list Z) : Prop :=
  u <> [] /\ Forall (fun c => notSpaceNorAt c = true) u.

Definition emailShape (s : list Z) : Prop :=
  exists a b c,
    s = (a ++ [at_sign] ++ b ++ [dot] ++ c)%list
    /\ part a /\ part b /\ part c.

Fixpoint countOf (x : Z) (s : list Z) : nat :=
  match s with
  | [] => O
  | c :: t => if c =? x then S (countOf x t) else countOf x t
  end.

End Email.

(** ** Notions for the further properties *)

Module View.

(** The order of the list view: later dates first, and among equal dates
    the transaction created later first. *)
Definition newerFirst (a b : Transaction) : Prop :=
  date b < date a \/ (date a = date b /\ createdAt b <= createdAt a).

(** Every transaction satisfies the invariants of the schema. *)
Definition allValid (s : Store) : Prop :=
  Forall (fun d => invariant d = true) (docs s).

(** What a dashboard request of [u] with the query [q] selects: the
    owner, the category when the query names one, and the date range when
    the query names a month whose bounds are dates. *)
Definition selects (tza : Z) (u : string) (q : Query) (d : Transaction)
  : Prop :=
  userId d = u
  /\ (forall c, q_category q = Some c -> c <> "" -> c <> "all" ->
                category d = c)
  /\ (forall m lo hi, q_month q = Some m -> m <> "" -> m <> "all" ->
                      monthRange tza m = (Some lo, Some hi) ->
                      lo <= date d <= hi).

(** The stored transactions a dashboard request selects, in the order of
    the collection; none when a bound of the month range is no date. *)
Definition shown (tza : Z) (u : string) (q : Query) (s : Store)
  : list Transaction :=
  match castFilter (buildFilter tza u q) with
  | Ok cf => List.filter (matches cf) (docs s)
  | Throw _ => []
  end.





(** The number a string of decimal digits writes, read from the left
    with [acc] as the value so far. *)
Fixpoint valueFrom (acc : Z) (s : string) : Z :=
  match s with
  | EmptyString => acc
  | String c r => valueFrom (acc * 10 + digitVal c) r
  end.

(** A byte that is neither a double quote nor a comma, and a string of
    such bytes. *)
Definition plain (c : ascii) : bool :=
  negb (Ascii.eqb c dquote) && negb (Ascii.eqb c ",").

Fixpoint allPlain (s : string) : bool :=
  match s with
  | EmptyString => true
  | String c r => plain c && allPlain r
  end.

(** The commas of a line of CSV that separate fields: those outside
    double quotes.  [inQuotes] tells whether a quoted field is open. *)
Fixpoint separators (inQuotes : bool) (s : string) : nat :=
  match s with
  | EmptyString => O
  | String c r =>
      if Ascii.eqb c dquote then separators (negb inQuotes) r
      else if Ascii.eqb c "," && negb inQuotes then S (separators inQuotes r)
      else separators inQuotes r
  end.

End View.

Import View.

(** * Properties *)

(** Refutes an equation between an answer of a route and the redirect to
    the dashboard. *)
Ltac not_home :=
  let H := fresh "H" in
  intros H;
  first [ discriminate H
        | injection H as _ H; vm_compute in H; discriminate H ].

(** ** The calendar *)

Lemma YearFromDay_spec (d : Z) :
  DayFromYear (YearFromDay d) <= d < DayFromYear (YearFromDay d + 1).
Proof.
  unfold YearFromDay. cbv zeta.
  destruct (Z.ltb_spec d (DayFromYear (1970 + d * 400 / 146097))) as [H1 | H1].
  - unfold DayFromYear in *. Z.div_mod_to_equations. lia.
  - destruct (Z.leb_spec (DayFromYear (1970 + d * 400 / 146097 + 1)) d)
      as [H2 | H2]; [| lia].
    unfold DayFromYear in *. Z.div_mod_to_equations. lia.
Qed.

Lemma DayFromYear_next (y : Z) :
  DayFromYear (y + 1) = DayFromYear y + DaysInYear y.
Proof.
  unfold DaysInYear, isLeap, DayFromYear.
  destruct (Z.eqb_spec (y mod 4) 0), (Z.eqb_spec (y mod 100) 0),
    (Z.eqb_spec (y mod 400) 0); cbn [andb orb negb];
    Z.div_mod_to_equations; lia.
Qed.

Lemma DayFromYear_mono (a b : Z) : a <= b -> DayFromYear a <= DayFromYear b.
Proof.
  intros H. unfold DayFromYear. Z.div_mod_to_equations. lia.
Qed.

Lemma YearFromDay_unique (d y : Z) :
  DayFromYear y <= d < DayFromYear (y + 1) -> YearFromDay d = y.
Proof.
  intros Hy. pose proof (YearFromDay_spec d) as Hs.
  destruct (Z.lt_trichotomy (YearFromDay d) y) as [H | [H | H]]; [| exact H |].
  - pose proof (DayFromYear_mono (YearFromDay d + 1) y). lia.
  - pose proof (DayFromYear_mono (y + 1) (YearFromDay d)). lia.
Qed.

Lemma InLeapYear_cases (t : Z) :
  InLeapYear t = DaysInYear (YearFromTime t) - 365
  /\ (InLeapYear t = 0 \/ InLeapYear t = 1).
Proof.
  unfold InLeapYear, DaysInYear.
  destruct (isLeap (YearFromTime t)); lia.
Qed.

Lemma DayWithinYear_range (t : Z) :
  0 <= DayWithinYear t < 365 + InLeapYear t.
Proof.
  unfold DayWithinYear, YearFromTime.
  pose proof (YearFromDay_spec (Day t)) as Hs.
  rewrite DayFromYear_next in Hs.
  destruct (InLeapYear_cases t) as [Hl _]. unfold YearFromTime in Hl.
  lia.
Qed.

Lemma month_chain (d l : Z) :
  l = 0 \/ l = 1 -> 0 <= d < 365 + l ->
  let m :=
    if d <? monthStart l 1 then 0
    else if d <? monthStart l 2 then 1
    else if d <? monthStart l 3 then 2
    else if d <? monthStart l 4 then 3
    else if d <? monthStart l 5 then 4
    else if d <? monthStart l 6 then 5
    else if d <? monthStart l 7 then 6
    else if d <? monthStart l 8 then 7
    else if d <? monthStart l 9 then 8
    else if d <? monthStart l 10 then 9
    else if d <? monthStart l 11 then 10
    else 11 in
  0 <= m <= 11 /\ monthStart l m <= d < monthStart l (m + 1)
  /\ monthStart l (m + 1) - monthStart l m <= 31.
Proof.
  intros Hl Hd. cbv zeta.
  repeat match goal with
         | |- context [?a <? ?b] => destruct (Z.ltb_spec a b)
         end;
    cbn [monthStart Z.add Pos.add Pos.succ] in *; destruct Hl; subst l; lia.
Qed.

Lemma MonthFromTime_range (t : Z) :
  0 <= MonthFromTime t <= 11
  /\ 1 <= DateFromTime t <= 31.
Proof.
  pose proof (DayWithinYear_range t) as Hd.
  destruct (InLeapYear_cases t) as [_ Hl].
  pose proof (month_chain (DayWithinYear t) (InLeapYear t) Hl Hd) as H.
  cbv zeta in H. fold (MonthFromTime t) in H.
  unfold DateFromTime. lia.
Qed.

(** The calendar fields of a time value name its day. *)
Lemma MakeDay_fields (t : Z) :
  MakeDay (YearFromTime t) (MonthFromTime t) (DateFromTime t) = Day t.
Proof.
  destruct (MonthFromTime_range t) as [Hm _].
  unfold MakeDay.
  rewrite (Z.div_small (MonthFromTime t) 12) by lia.
  rewrite (Z.mod_small (MonthFromTime t) 12) by lia.
  rewrite Z.add_0_r.
  unfold DateFromTime, DayWithinYear, InLeapYear. lia.
Qed.

Lemma Day_MakeDate (day tod : Z) :
  0 <= tod < msPerDay ->
  Day (MakeDate day tod) = day /\ TimeWithinDay (MakeDate day tod) = tod.
Proof.
  intros H. unfold Day, TimeWithinDay, MakeDate, msPerDay in *.
  Z.div_mod_to_equations. lia.
Qed.

Lemma time_decomposition (t : Z) :
  t = MakeDate (Day t) (TimeWithinDay t) /\ 0 <= TimeWithinDay t < msPerDay.
Proof.
  unfold Day, TimeWithinDay, MakeDate, msPerDay.
  Z.div_mod_to_equations. lia.
Qed.

Lemma leap_flag (y : Z) :
  (if isLeap y then 1 else 0) = 0 \/ (if isLeap y then 1 else 0) = 1.
Proof. destruct (isLeap y); lia. Qed.

Lemma small_month_cases (m : Z) :
  0 <= m <= 11 ->
  m = 0 \/ m = 1 \/ m = 2 \/ m = 3 \/ m = 4 \/ m = 5 \/ m = 6 \/ m = 7
  \/ m = 8 \/ m = 9 \/ m = 10 \/ m = 11.
Proof. lia. Qed.

(** The calendar fields of a day built by [MakeDay], when the day of the
    month is one that every month has. *)
Lemma fields_MakeDay (y m dt tod : Z) :
  1 <= dt <= 28 -> 0 <= tod < msPerDay ->
  let t := MakeDate (MakeDay y m dt) tod in
  YearFromTime t = y + m / 12
  /\ MonthFromTime t = m mod 12
  /\ DateFromTime t = dt
  /\ TimeWithinDay t = tod.
Proof.
  intros Hdt Htod t.
  destruct (Day_MakeDate (MakeDay y m dt) tod Htod) as [Hday Htime].
  fold t in Hday, Htime.
  assert (Hmn : 0 <= m mod 12 <= 11) by (pose proof (Z.mod_pos_bound m 12); lia).
  set (ym := y + m / 12) in *.
  set (mn := m mod 12) in *.
  set (l := if isLeap ym then 1 else 0).
  assert (Hl : l = 0 \/ l = 1) by apply leap_flag.
  assert (Hmd : MakeDay y m dt = DayFromYear ym + monthStart l mn + dt - 1)
    by reflexivity.
  assert (Hyear : YearFromTime t = ym).
  { unfold YearFromTime. rewrite Hday, Hmd.
    apply YearFromDay_unique. rewrite DayFromYear_next.
    unfold DaysInYear. fold l.
    assert (Hd : DaysInYear ym = 365 + l)
      by (unfold DaysInYear, l; destruct (isLeap ym); lia).
    unfold DaysInYear in Hd.
    destruct (small_month_cases mn Hmn) as
      [E|[E|[E|[E|[E|[E|[E|[E|[E|[E|[E|E]]]]]]]]]]]; rewrite E;
      cbn [monthStart]; destruct Hl as [El | El]; rewrite El in *; lia. }
  assert (Hleap : InLeapYear t = l) by (unfold InLeapYear; now rewrite Hyear).
  assert (Hdwy : DayWithinYear t = monthStart l mn + dt - 1).
  { unfold DayWithinYear. rewrite Hyear, Hday, Hmd. lia. }
  assert (Hmonth : MonthFromTime t = mn).
  { unfold MonthFromTime. rewrite Hleap, Hdwy.
    destruct (small_month_cases mn Hmn) as
      [E|[E|[E|[E|[E|[E|[E|[E|[E|[E|[E|E]]]]]]]]]]]; rewrite E;
      destruct Hl as [El | El]; rewrite El; cbn [monthStart];
      repeat match goal with
             | |- context [?a <? ?b] => destruct (Z.ltb_spec a b); try lia
             end. }
  repeat split; try assumption.
  unfold DateFromTime. rewrite Hleap, Hdwy, Hmonth. lia.
Qed.

(** Carrying the months into the year first does not change the day. *)
Lemma MakeDay_normal (y m dt : Z) :
  MakeDay (y + m / 12) (m mod 12) dt = MakeDay y m dt.
Proof.
  unfold MakeDay.
  pose proof (Z.mod_pos_bound m 12 ltac:(lia)) as Hm.
  rewrite (Z.div_small (m mod 12) 12) by lia.
  rewrite (Z.mod_small (m mod 12) 12) by lia.
  now rewrite Z.add_0_r.
Qed.

(** Eleven months back is less than a year back. *)
Lemma MakeDay_eleven_back (y m dt : Z) :
  0 <= m <= 11 ->
  MakeDay y m dt - 366 <= MakeDay y (m - 11) dt <= MakeDay y m dt.
Proof.
  intros Hm. unfold MakeDay.
  rewrite (Z.div_small m 12) by lia.
  rewrite (Z.mod_small m 12) by lia.
  rewrite Z.add_0_r.
  destruct (small_month_cases m Hm) as
    [E|[E|[E|[E|[E|[E|[E|[E|[E|[E|[E|E]]]]]]]]]]]; subst m;
    cbn [Z.sub Z.add Z.opp Z.pos_sub Pos.pred_double Z.succ_double Z.pred_double Z.double];
    match goal with
    | |- context [?a / 12] =>
        let q := eval vm_compute in (a / 12) in
        let r := eval vm_compute in (a mod 12) in
        change (a / 12) with q; change (a mod 12) with r
    end;
    rewrite ?Z.add_0_r;
    try (replace (y + -1) with (y - 1) by lia;
         pose proof (DayFromYear_next (y - 1)) as Hn;
         replace (y - 1 + 1) with y in Hn by lia;
         unfold DaysInYear in Hn);
    cbn [monthStart];
    destruct (isLeap y), (isLeap (y - 1)); lia.
Qed.

(** ** Sorting *)

Section SortFacts.

Context {T : Type} (le : T -> T -> bool).
Hypothesis le_total : forall a b, le a b = false -> le b a = true.

Lemma insertSorted_perm (x : T) (l : list T) :
  Permutation (x :: l) (insertSorted le x l).
Proof.
  induction l as [| y r IH]; simpl; [apply Permutation_refl |].
  destruct (le y x).
  - apply Permutation_trans with (y :: x :: r); [apply perm_swap |].
    now apply perm_skip.
  - apply Permutation_refl.
Qed.

Lemma fold_insert_perm (l acc : list T) :
  Permutation (l ++ acc)%list
              (fold_left (fun a x => insertSorted le x a) l acc).
Proof.
  revert acc. induction l as [| x r IH]; intros acc; simpl.
  - apply Permutation_refl.
  - apply Permutation_trans with (r ++ insertSorted le x acc)%list; [| apply IH].
    apply Permutation_trans with (r ++ x :: acc)%list.
    + apply Permutation_middle.
    + apply Permutation_app_head, insertSorted_perm.
Qed.

Lemma sortBy_perm (l : list T) : Permutation l (sortBy le l).
Proof.
  unfold sortBy.
  pose proof (fold_insert_perm l []) as H.
  now rewrite app_nil_r in H.
Qed.

Lemma insertSorted_hd (a x : T) (l : list T) :
  le a x = true ->
  HdRel (fun p q => le p q = true) a l ->
  HdRel (fun p q => le p q = true) a (insertSorted le x l).
Proof.
  intros Hax Hl. destruct l as [| y r]; simpl.
  - now constructor.
  - destruct (le y x); constructor; [now inversion Hl | exact Hax].
Qed.

Lemma insertSorted_sorted (x : T) (l : list T) :
  Sorted (fun p q => le p q = true) l ->
  Sorted (fun p q => le p q = true) (insertSorted le x l).
Proof.
  induction l as [| y r IH]; intros Hs; simpl.
  - repeat constructor.
  - inversion Hs as [| ? ? Hr Hhd]; subst.
    destruct (le y x) eqn:Hyx.
    + constructor; [now apply IH | now apply insertSorted_hd].
    + constructor; [exact Hs |]. constructor. now apply le_total.
Qed.

Lemma fold_insert_sorted (l acc : list T) :
  Sorted (fun p q => le p q = true) acc ->
  Sorted (fun p q => le p q = true)
         (fold_left (fun a x => insertSorted le x a) l acc).
Proof.
  revert acc. induction l as [| x r IH]; intros acc Hacc; simpl.
  - exact Hacc.
  - apply IH. now apply insertSorted_sorted.
Qed.

Lemma sortBy_sorted (l : list T) :
  Sorted (fun p q => le p q = true) (sortBy le l).
Proof.
  unfold sortBy. apply fold_insert_sorted. constructor.
Qed.

End SortFacts.


(** ** The Summary Calculator *)






(** ** Queries by owner *)

Lemma matches_owner (cf : CastFilter) (d : Transaction) :
  matches cf d = true -> userId d = cf_userId cf.
Proof.
  unfold matches. intros H.
  apply andb_prop in H as [H _].
  apply andb_prop in H as [H _].
  apply andb_prop in H as [_ H].
  now apply String.eqb_eq.
Qed.

Lemma castFilter_owner (f : Filter) (cf : CastFilter) :
  castFilter f = Ok cf -> cf_userId cf = f_userId f.
Proof.
  unfold castFilter. intros H.
  destruct (f_date f) as [[[lo|] [hi|]]|]; inversion H; reflexivity.
Qed.

Lemma castFilter_date (f : Filter) (cf : CastFilter) (lo hi : Z) :
  castFilter f = Ok cf ->
  f_date f = Some (Some lo, Some hi) ->
  cf_date cf = Some (lo, hi).
Proof.
  unfold castFilter. intros H Hd. rewrite Hd in H.
  injection H as <-. reflexivity.
Qed.

Lemma matches_date (cf : CastFilter) (d : Transaction) (lo hi : Z) :
  matches cf d = true ->
  cf_date cf = Some (lo, hi) ->
  lo <= date d <= hi.
Proof.
  unfold matches. intros H Hd. rewrite Hd in H.
  apply andb_prop in H as [H _].
  apply andb_prop in H as [_ H].
  apply andb_prop in H as [H1 H2].
  apply Z.leb_le in H1, H2. lia.
Qed.

Lemma castFilter_byOwner (u : string) :
  castFilter (byOwner u)
  = Ok {| cf_id := None; cf_userId := u; cf_date := None;
          cf_category := None |}.
Proof. reflexivity. Qed.

Lemma find_byOwner (u : string) (s : Store) :
  find (byOwner u) s = Ok (ownedBy u s).
Proof.
  unfold find, ownedBy. rewrite castFilter_byOwner. simpl.
  f_equal. apply filter_ext. intros d. unfold matches; simpl.
  now rewrite !andb_true_r.
Qed.

Lemma isAuthenticated_nonempty (u : string) :
  u <> "" -> isAuthenticated (Some u) = Some u.
Proof.
  intros Hu. unfold isAuthenticated. destruct u; [contradiction | reflexivity].
Qed.

(** ** CSV export with nothing to export *)

(** C9.  When the owner has no transaction, the export route answers with
    the redirect that carries the message No transactions to export (the
    user-visible outcome, distinct from the redirect of a failed export),
    and sends no CSV body. *)
Theorem export_without_transactions (tza : Z) (u : string) (s : Store) :
  u <> "" ->
  ownedBy u s = [] ->
  getExportCsv tza (Some u) s
  = Redirect "/?error=No%20transactions%20to%20export."
  /\ getExportCsv tza (Some u) s <> errorRedirect "Failed to export."
  /\ forall body, getExportCsv tza (Some u) s <> SendCsv body.
Proof.
  intros Hu Hnone.
  assert (E : getExportCsv tza (Some u) s
              = Redirect "/?error=No%20transactions%20to%20export.").
  { unfold getExportCsv. rewrite (isAuthenticated_nonempty u Hu).
    rewrite find_byOwner, Hnone. reflexivity. }
  rewrite E. repeat split.
  - discriminate.
  - intros body; discriminate.
Qed.

Lemma export_without_transactions_witness :
  getExportCsv 0 (Some U) emptyStore
  = Redirect "/?error=No%20transactions%20to%20export."
  /\ getExportCsv 0 (Some U) emptyStore <> errorRedirect "Failed to export."
  /\ forall body, getExportCsv 0 (Some U) emptyStore <> SendCsv body.
Proof.
  apply (export_without_transactions 0 U emptyStore).
  - discriminate.
  - reflexivity.
Defined.

(** ** The default owner of the schema *)

Lemma validate_nil_shape (i : TransactionInput) :
  validate i = [] ->
  exists u ty c a n d,
    applyDefaults i
    = {| in_userId := Some u; in_type := Some ty; in_category := Some c;
         in_amount := Some (Some a); in_note := Some n;
         in_date := Some (Some d) |}.
Proof.
  unfold validate, applyDefaults.
  destruct i as [u ty c a n d]; simpl.
  intros H.
  apply app_eq_nil in H as [_ H].
  apply app_eq_nil in H as [Hty H].
  apply app_eq_nil in H as [Hc H].
  apply app_eq_nil in H as [Ha Hd].
  destruct ty as [ty|]; [| discriminate].
  destruct c as [c|]; [| discriminate].
  destruct a as [[a|]|]; try discriminate.
  destruct d as [[d|]|]; try discriminate.
  destruct u as [u|]; destruct n as [n|]; repeat eexists.
Qed.



(** ** The month filter *)

Lemma split_token_2024_03 :
  split "2024-03" "-" = ["2024"; "03"].
Proof. reflexivity. Qed.

Lemma monthRange_2024_03 (tza : Z) :
  Z.abs tza <= 86400000 ->
  monthRange tza "2024-03"
  = (Some (utcMidnight 2024 3 1 - tza), Some (utcMidnight 2024 3 31 - tza)).
Proof.
  intros Htz.
  unfold monthRange. rewrite split_token_2024_03.
  cbn [nth nth_error].
  replace (stringToNumber "2024") with (Some 2024%Q) by reflexivity.
  replace (parseInt_opt (Some "03")) with (Some 3) by reflexivity.
  cbn [option_map].
  unfold newDate3, UTC.
  replace (truncate 2024) with 2024 by reflexivity.
  cbn [Z.leb Z.compare Pos.compare Pos.compare_cont andb].
  replace (MakeDate (MakeDay 2024 (3 - 1) 1) (MakeTime 0 0 0 0))
    with (utcMidnight 2024 3 1) by reflexivity.
  replace (MakeDate (MakeDay 2024 3 0) (MakeTime 0 0 0 0))
    with (utcMidnight 2024 3 31) by reflexivity.
  unfold TimeClip.
  replace (utcMidnight 2024 3 1) with 1709251200000 by reflexivity.
  replace (utcMidnight 2024 3 31) with 1711843200000 by reflexivity.
  destruct (Z.ltb_spec 8640000000000000 (Z.abs (1709251200000 - tza))); [lia |].
  destruct (Z.ltb_spec 8640000000000000 (Z.abs (1711843200000 - tza))); [lia |].
  reflexivity.
Qed.

Lemma buildFilter_no_month (tza : Z) (u : string) (q : Query) :
  q_month q = None \/ q_month q = Some "all" \/ q_month q = Some "" ->
  f_date (buildFilter tza u q) = None.
Proof.
  intros [H | [H | H]]; unfold buildFilter; simpl; now rewrite H.
Qed.

Lemma buildFilter_no_category (tza : Z) (u : string) (q : Query) :
  q_category q = None \/ q_category q = Some "all" \/ q_category q = Some "" ->
  f_category (buildFilter tza u q) = None.
Proof.
  intros [H | [H | H]]; unfold buildFilter; simpl; now rewrite H.
Qed.

Lemma buildFilter_category (tza : Z) (u : string) (q : Query) (c : string) :
  q_category q = Some c -> c <> "" -> c <> "all" ->
  f_category (buildFilter tza u q) = Some c.
Proof.
  intros H Hne Hall. unfold buildFilter; simpl. rewrite H.
  destruct c as [| a r]; [contradiction |].
  cbn [truthy isEmpty negb andb].
  destruct (String.eqb_spec (String a r) "all"); [contradiction | reflexivity].
Qed.

Lemma buildFilter_owner (tza : Z) (u : string) (q : Query) :
  f_userId (buildFilter tza u q) = u.
Proof. reflexivity. Qed.

Lemma buildFilter_month (tza : Z) (u : string) (q : Query) (m : string) :
  q_month q = Some m -> m <> "" -> m <> "all" ->
  f_date (buildFilter tza u q) = Some (monthRange tza m).
Proof.
  intros H Hne Hall. unfold buildFilter; simpl. rewrite H.
  destruct m as [| a r]; [contradiction |].
  cbn [truthy isEmpty negb andb].
  destruct (String.eqb_spec (String a r) "all"); [contradiction | reflexivity].
Qed.




(** The parts of C4 that hold for every request: no date condition
    without a month token, the bounds of March 2024, and the conditions on
    category and owner. *)
Lemma buildFilter_2024_03 (tza : Z) (u : string) :
  Z.abs tza <= 86400000 ->
  f_date (buildFilter tza u (monthFilter "2024-03"))
  = Some (Some (utcMidnight 2024 3 1 - tza),
          Some (utcMidnight 2024 3 31 - tza)).
Proof.
  intros Htz.
  rewrite (buildFilter_month tza u (monthFilter "2024-03") "2024-03");
    try reflexivity; try discriminate.
  now rewrite monthRange_2024_03.
Qed.

(** In every zone, a transaction at noon of March 31st local time lies in
    March 2024 and is refused by the date condition of the token
    2024-03. *)
Lemma month_filter_refuses_noon (tza : Z) (u : string) (d : Transaction) :
  Z.abs tza <= 86400000 ->
  userId d = u ->
  date d = utcMidnight 2024 3 31 + 12 * 3600000 - tza ->
  inMonth tza 2024 3 (date d) = true
  /\ forall cf,
       castFilter (buildFilter tza u (monthFilter "2024-03")) = Ok cf ->
       matches cf d = false.
Proof.
  intros Htz Hu Hd. split.
  - unfold inMonth, LocalTime. rewrite Hd.
    replace (utcMidnight 2024 3 31 + 12 * 3600000 - tza + tza)
      with (utcMidnight 2024 3 31 + 12 * 3600000) by ring.
    reflexivity.
  - intros cf Hcf.
    destruct (matches cf d) eqn:Hm; [| reflexivity].
    pose proof (castFilter_date _ _ _ _ Hcf (buildFilter_2024_03 tza u Htz))
      as Hcd.
    pose proof (matches_date _ _ _ _ Hm Hcd) as [_ Hhi].
    rewrite Hd in Hhi. lia.
Qed.

(** C4, at the failing input.  On a server at UTC+5 the owner posts the
    add form with the date 2024-03-31; the stored transaction lies in
    March 2024 (in local time and in UTC); the filter for the token
    2024-03 is the range from the start of March 1st to the start of
    March 31st, local time; and the dashboard for that token lists no
    transaction, nor does the dashboard for the token 2024-04, while the
    dashboard without filters lists it.  On a server at UTC the same
    happens to a transaction entered for noon of March 31st. *)
Theorem month_filter_misses_last_day :
  (exists d, docs store2 = [d]
             /\ date d = utcMidnight 2024 3 31
             /\ inMonth plus5h 2024 3 (date d) = true
             /\ inMonth 0 2024 3 (date d) = true)
  /\ f_date (buildFilter plus5h U (monthFilter "2024-03"))
     = Some (Some (utcMidnight 2024 3 1 - plus5h),
             Some (utcMidnight 2024 3 31 - plus5h))
  /\ (exists v, getDashboard plus5h now1 (Some U) (monthFilter "2024-03") store2
                = Render v
                /\ v_transactions v = [])
  /\ (exists v, getDashboard plus5h now1 (Some U) (monthFilter "2024-04") store2
                = Render v
                /\ v_transactions v = [])
  /\ (exists v, getDashboard plus5h now1 (Some U) noFilters store2 = Render v
                /\ v_transactions v = docs store2)
  /\ (exists d, docs store6 = [d]
                /\ date d = utcMidnight 2024 3 31 + 12 * 3600000
                /\ inMonth 0 2024 3 (date d) = true)
  /\ (exists v, getDashboard 0 now1 (Some U) (monthFilter "2024-03") store6
                = Render v
                /\ v_transactions v = []).
Proof.
  split; [| split; [| split; [| split; [| split; [| split]]]]].
  - eexists. split; [vm_compute; reflexivity |]. repeat split.
  - reflexivity.
  - eexists. split; [vm_compute; reflexivity | reflexivity].
  - eexists. split; [vm_compute; reflexivity | reflexivity].
  - eexists. split; [vm_compute; reflexivity | reflexivity].
  - eexists. split; [vm_compute; reflexivity |]. repeat split.
  - eexists. split; [vm_compute; reflexivity | reflexivity].
Qed.

(** ** The trailing window *)

Lemma TimeClip_in_range (t : Z) :
  Z.abs t <= 8640000000000000 -> TimeClip t = Some t.
Proof.
  intros H. unfold TimeClip.
  destruct (Z.ltb_spec 8640000000000000 (Z.abs t)); [lia | reflexivity].
Qed.

Lemma MakeDay_date_shift (y m dt : Z) :
  MakeDay y m dt = MakeDay y m 1 + dt - 1.
Proof. unfold MakeDay. lia. Qed.

(** Up to the 28th of a month, [twelveMonthsAgo] is the first day of the
    month 11 months before, at the time of day of [now]. *)
Lemma twelveMonthsAgo_before_29th (tza now : Z) :
  Z.abs tza <= msPerDay ->
  Z.abs now <= 8000000000000000 ->
  DateFromTime (LocalTime tza now) <= 28 ->
  twelveMonthsAgo tza now
  = Some (Spec.sinceDate tza now + TimeWithinDay (LocalTime tza now)).
Proof.
  intros Htz Hnow Hday.
  unfold twelveMonthsAgo, getMonth, setMonth. cbn [option_map].
  set (t := LocalTime tza now).
  fold t in Hday.
  destruct (MonthFromTime_range t) as [HM HD].
  destruct (time_decomposition t) as [Ht Htod].
  pose proof (MakeDay_fields t) as Hfields.
  pose proof (MakeDay_eleven_back (YearFromTime t) (MonthFromTime t)
                (DateFromTime t) HM) as Hback.
  set (Y := YearFromTime t) in *.
  set (M := MonthFromTime t) in *.
  set (D := DateFromTime t) in *.
  set (tod := TimeWithinDay t) in *.
  set (t1 := MakeDate (MakeDay Y (M - 11) D) tod).
  assert (Ht_abs : Z.abs t <= 8000000000000000 + msPerDay)
    by (unfold t, LocalTime; lia).
  assert (Ht1 : t - 366 * msPerDay <= t1 <= t).
  { unfold t1. unfold MakeDate, msPerDay in *. lia. }
  rewrite (TimeClip_in_range (UTC tza t1))
    by (unfold UTC, msPerDay in *; lia).
  unfold setDate.
  replace (LocalTime tza (UTC tza t1)) with t1 by (unfold LocalTime, UTC; lia).
  destruct (fields_MakeDay Y (M - 11) D tod ltac:(lia) Htod)
    as (Hy1 & Hm1 & _ & Htod1).
  fold t1 in Hy1, Hm1, Htod1.
  rewrite Hy1, Hm1, Htod1, MakeDay_normal.
  pose proof (MakeDay_date_shift Y (M - 11) D) as Hshift.
  rewrite TimeClip_in_range.
  - f_equal. unfold Spec.sinceDate. fold t. fold Y. fold M.
    unfold UTC, MakeDate. lia.
  - unfold t1 in Ht1. unfold UTC, MakeDate, msPerDay in *. lia.
Qed.

(** The cut-off keeps the time of day of the clock: at noon of
    2024-02-10 it is noon of 2023-03-01, and a transaction dated
    2023-03-01 (midnight UTC, as the add route stores a date-only entry)
    is outside the match although March 2023 is the first month of the
    window. *)
Lemma twelveMonthsAgo_keeps_time_of_day :
  twelveMonthsAgo 0 now1 = Some (utcMidnight 2023 3 1 + 12 * 3600000)
  /\ matchStage (BString U) (twelveMonthsAgo 0 now1)
       [tx 0 U "income" 75 (utcMidnight 2023 3 1)] = [].
Proof.
  split; vm_compute; reflexivity.
Qed.

(** C5, at the failing input.  On January 31st, 2024 (midnight, UTC
    server) the month 11 months before the current one is February 2023,
    whose first day the specification names; [setMonth] keeps the day 31,
    which February does not have, so the date runs over into March before
    [setDate(1)] is applied, and the route computes March 1st, 2023.  A
    transaction of February 15th, 2023 is then outside the match of the
    aggregation. *)
Theorem twelveMonthsAgo_skips_short_month :
  Spec.sinceDate 0 (utcMidnight 2024 1 31) = utcMidnight 2023 2 1
  /\ setMonth 0 (Some (utcMidnight 2024 1 31)) (Some (0 - 11))
     = Some (utcMidnight 2023 3 3)
  /\ twelveMonthsAgo 0 (utcMidnight 2024 1 31) = Some (utcMidnight 2023 3 1)
  /\ twelveMonthsAgo 0 (utcMidnight 2024 1 31)
     <> Some (Spec.sinceDate 0 (utcMidnight 2024 1 31))
  /\ matchStage (BString U) (Some (Spec.sinceDate 0 (utcMidnight 2024 1 31)))
       (docs store3) = docs store3
  /\ matchStage (BString U) (twelveMonthsAgo 0 (utcMidnight 2024 1 31))
       (docs store3) = [].
Proof.
  split; [vm_compute; reflexivity |].
  split; [vm_compute; reflexivity |].
  split; [vm_compute; reflexivity |].
  split; [vm_compute; discriminate |].
  split; vm_compute; reflexivity.
Qed.

(** ** The monthly breakdown *)

Lemma matchStage_objectid (h : string) (since : JsDate.date)
  (l : list Transaction) :
  matchStage (BObjectId h) since l = [].
Proof.
  unfold matchStage. induction l as [| d r IH]; simpl; [reflexivity |].
  exact IH.
Qed.

Lemma aggregate_objectid (h : string) (since : JsDate.date) (s : Store) :
  aggregate (BObjectId h) since s = [].
Proof.
  unfold aggregate. now rewrite matchStage_objectid.
Qed.

Lemma ObjectId_shape (u : string) (b : bson) :
  ObjectId u = Ok b -> b = BObjectId (toLowerCase u).
Proof.
  unfold ObjectId.
  destruct (Nat.eqb (String.length u) 24 && allHex u); intros H;
    now inversion H.
Qed.

(** Whatever the store holds, the dashboard renders an empty monthly
    breakdown: the match of the aggregation compares the stored string
    with an ObjectId. *)
Lemma dashboard_breakdown_empty (tza now : Z) (session : option string)
  (q : Query) (s : Store) (v : IndexView) :
  getDashboard tza now session q s = Render v ->
  v_monthlyBreakdown v = [].
Proof.
  unfold getDashboard, loginRedirect.
  destruct (isAuthenticated session) as [u|]; [| discriminate].
  destruct (find (buildFilter tza u q) s) as [found|]; [| discriminate].
  destruct (ObjectId u) as [b|] eqn:Hoid; [| discriminate].
  apply ObjectId_shape in Hoid. subst b.
  rewrite aggregate_objectid. intros H. injection H as <-. reflexivity.
Qed.

(** C1, at the failing input.  The store holds the three transactions of
    the scenario for owner [U], the request has no filters and the clock
    is at 2024-02-10: the dashboard lists the three transactions and sums
    them, and its monthly breakdown is empty.  The two entries of the
    claim are what the same pipeline returns when the owner is matched as
    the string the schema stores. *)
Theorem dashboard_scenario_breakdown :
  getDashboard 0 now1 (Some U) noFilters store1
  = Render {| v_transactions :=
                [ tx 2 U "expense" 50 (utcMidnight 2024 2 1);
                  tx 1 U "expense" 200 (utcMidnight 2024 1 20);
                  tx 0 U "income" 500 (utcMidnight 2024 1 15) ];
              v_summary := {| income := 500; expense := 250; net := 250 |};
              v_monthlyBreakdown := [];
              v_categories := CATEGORIES;
              v_editTransaction := None;
              v_query := noFilters |}
  /\ ObjectId U = Ok (BObjectId U)
  /\ map (toMonthEntry 0)
         (aggregate (BString U) (twelveMonthsAgo 0 now1) store1)
     = [ {| label := "Jan 2024"; m_income := 500; m_expense := 200;
            m_net := 300; monthKey := "2024-01" |};
         {| label := "Feb 2024"; m_income := 0; m_expense := 50;
            m_net := -50; monthKey := "2024-02" |} ].
Proof.
  split; [vm_compute; reflexivity |].
  split; vm_compute; reflexivity.
Qed.

(** ** Validation on create and on update *)

Lemma applyUpdate_keeps_owner (now : Z) (u : CastUpdate) (d : Transaction) :
  userId (applyUpdate now u d) = userId d
  /\ _id (applyUpdate now u d) = _id d
  /\ createdAt (applyUpdate now u d) = createdAt d.
Proof. repeat split. Qed.

(** What [save] stores satisfies the invariants of the schema. *)
Lemma save_invariant (now : Z) (i : TransactionInput) (s s' : Store)
  (d : Transaction) :
  save now i s = Ok (s', d) -> invariant d = true.
Proof.
  unfold save. destruct (validate i) as [| e es] eqn:Hv.
  - destruct (validate_nil_shape i Hv) as (u & ty & c & a & n & dt & Hshape).
    unfold toDocument. rewrite Hshape. intros H. injection H as _ <-.
    unfold validate in Hv. rewrite Hshape in Hv. simpl in Hv.
    apply app_eq_nil in Hv as [_ Hv].
    apply app_eq_nil in Hv as [Hty Hv].
    apply app_eq_nil in Hv as [_ Hv].
    apply app_eq_nil in Hv as [Ha _].
    unfold invariant; simpl.
    unfold checkAmount in Ha.
    destruct (Qle_bool minAmount a); [| discriminate].
    unfold checkType in Hty.
    destruct (isEmpty ty); [discriminate |].
    destruct (inEnum ty); [reflexivity | discriminate].
  - destruct (toDocument (nextId s) now i); discriminate.
Qed.

(** C6, at the failing input.  In the store of the scenario every
    transaction satisfies the invariants.  The owner posts the update form
    for the transaction 1 with the amount -5: the update is written with
    no validation, and the stored transaction has the amount -5; with the
    kind gift, the stored transaction has a kind outside the enum.  The
    same two forms posted to the add route are refused by the validators
    and leave the store as it was.  The owner of the transaction stays
    the same. *)
Theorem update_skips_validation :
  forallb invariant (docs store1) = true
  /\ (exists d0 d1 d2,
        postUpdate 0 now1 (Some U) 1 negativeBody store1
        = ({| docs := [d0; d1; d2]; nextId := 3 |}, Redirect "/")
        /\ _id d1 = 1%nat /\ userId d1 = U
        /\ amount d1 = (-5)%Q /\ invariant d1 = false)
  /\ (exists d0 d1 d2,
        postUpdate 0 now1 (Some U) 1 giftBody store1
        = ({| docs := [d0; d1; d2]; nextId := 3 |}, Redirect "/")
        /\ _id d1 = 1%nat /\ userId d1 = U
        /\ type d1 = "gift" /\ invariant d1 = false)
  /\ postAdd 0 now1 (Some U) negativeBody store1
     = (store1, RedirectError (ValidationError [Min Pamount]))
  /\ postAdd 0 now1 (Some U) giftBody store1
     = (store1, RedirectError (ValidationError [Enum Ptype])).
Proof.
  split; [vm_compute; reflexivity |].
  split.
  { do 3 eexists. split; [vm_compute; reflexivity |].
    repeat split. }
  split.
  { do 3 eexists. split; [vm_compute; reflexivity |].
    repeat split. }
  split; vm_compute; reflexivity.
Qed.

(** ** Ownership isolation *)

Section Isolation.

Variables A B : string.
Hypothesis HAB : A <> B.

Local Abbreviation notA :=
  (fun d : Transaction => negb (String.eqb (userId d) A)).

Lemma matches_notA (cf : CastFilter) (d : Transaction) :
  cf_userId cf = B -> matches cf d = true ->
  negb (String.eqb (userId d) A) = true.
Proof.
  intros HB Hm. apply matches_owner in Hm.
  destruct (String.eqb_spec (userId d) A) as [E |]; [| reflexivity].
  congruence.
Qed.

Lemma filter_matches_notA (cf : CastFilter) (l : list Transaction) :
  cf_userId cf = B ->
  List.filter (matches cf) (List.filter notA l) = List.filter (matches cf) l.
Proof.
  intros HB. induction l as [| d r IH]; simpl; [reflexivity |].
  destruct (matches cf d) eqn:Hm.
  - rewrite (matches_notA cf d HB Hm). simpl. now rewrite Hm, IH.
  - destruct (negb (String.eqb (userId d) A)); simpl; [rewrite Hm |]; exact IH.
Qed.

Lemma find_first_notA (cf : CastFilter) (l : list Transaction) :
  cf_userId cf = B ->
  List.find (matches cf) (List.filter notA l) = List.find (matches cf) l.
Proof.
  intros HB. induction l as [| d r IH]; simpl; [reflexivity |].
  destruct (matches cf d) eqn:Hm.
  - rewrite (matches_notA cf d HB Hm). simpl. now rewrite Hm.
  - destruct (negb (String.eqb (userId d) A)); simpl; [rewrite Hm |]; exact IH.
Qed.

Lemma replaceFirst_notA (cf : CastFilter) (d' : Transaction)
  (l : list Transaction) :
  cf_userId cf = B -> userId d' = B ->
  replaceFirst (matches cf) d' (List.filter notA l)
  = List.filter notA (replaceFirst (matches cf) d' l).
Proof.
  intros HB Hd'.
  assert (Hn : negb (String.eqb (userId d') A) = true).
  { rewrite Hd'.
    destruct (String.eqb_spec B A); [congruence | reflexivity]. }
  induction l as [| d r IH]; simpl; [reflexivity |].
  destruct (matches cf d) eqn:Hm.
  - rewrite (matches_notA cf d HB Hm). simpl. now rewrite Hm, Hn.
  - destruct (negb (String.eqb (userId d) A)) eqn:Hd; simpl;
      rewrite ?Hm, ?Hd; now rewrite IH.
Qed.

Lemma removeFirst_notA (cf : CastFilter) (l : list Transaction) :
  cf_userId cf = B ->
  removeFirst (matches cf) (List.filter notA l)
  = List.filter notA (removeFirst (matches cf) l).
Proof.
  intros HB. induction l as [| d r IH]; simpl; [reflexivity |].
  destruct (matches cf d) eqn:Hm.
  - rewrite (matches_notA cf d HB Hm). simpl. now rewrite Hm.
  - destruct (negb (String.eqb (userId d) A)) eqn:Hd; simpl;
      rewrite ?Hm, ?Hd; now rewrite IH.
Qed.

Lemma replaceFirst_ownedBy (cf : CastFilter) (d' : Transaction)
  (l : list Transaction) :
  cf_userId cf = B -> userId d' = B ->
  List.filter (fun d => String.eqb (userId d) A)
              (replaceFirst (matches cf) d' l)
  = List.filter (fun d => String.eqb (userId d) A) l.
Proof.
  intros HB Hd'.
  induction l as [| d r IH]; simpl; [reflexivity |].
  destruct (matches cf d) eqn:Hm; simpl.
  - apply matches_owner in Hm. rewrite Hd', Hm, HB.
    destruct (String.eqb_spec B A); [congruence | reflexivity].
  - now rewrite IH.
Qed.

Lemma removeFirst_ownedBy (cf : CastFilter) (l : list Transaction) :
  cf_userId cf = B ->
  List.filter (fun d => String.eqb (userId d) A) (removeFirst (matches cf) l)
  = List.filter (fun d => String.eqb (userId d) A) l.
Proof.
  intros HB.
  induction l as [| d r IH]; simpl; [reflexivity |].
  destruct (matches cf d) eqn:Hm; simpl.
  - apply matches_owner in Hm. rewrite Hm, HB.
    destruct (String.eqb_spec B A); [congruence | reflexivity].
  - now rewrite IH.
Qed.

Lemma find_withoutOwner (f : Filter) (s : Store) :
  f_userId f = B ->
  find f (withoutOwner A s) = find f s.
Proof.
  intros HB. unfold find.
  destruct (castFilter f) as [cf|] eqn:Hcf; [| reflexivity].
  simpl. f_equal. apply filter_matches_notA.
  now rewrite (castFilter_owner f cf Hcf).
Qed.

Lemma findOne_withoutOwner (f : Filter) (s : Store) :
  f_userId f = B ->
  findOne f (withoutOwner A s) = findOne f s.
Proof.
  intros HB. unfold findOne.
  destruct (castFilter f) as [cf|] eqn:Hcf; [| reflexivity].
  simpl. f_equal. apply find_first_notA.
  now rewrite (castFilter_owner f cf Hcf).
Qed.

Lemma aggregate_withoutOwner (u : string) (b : bson) (since : JsDate.date)
  (s : Store) :
  ObjectId u = Ok b ->
  aggregate b since (withoutOwner A s) = aggregate b since s.
Proof.
  intros H. apply ObjectId_shape in H. subst b.
  now rewrite !aggregate_objectid.
Qed.

Lemma getDashboard_withoutOwner (tza now : Z) (q : Query) (s : Store) :
  getDashboard tza now (Some B) q (withoutOwner A s)
  = getDashboard tza now (Some B) q s.
Proof.
  unfold getDashboard.
  destruct (isAuthenticated (Some B)) as [u|] eqn:Hauth; [| reflexivity].
  assert (Hu : u = B).
  { unfold isAuthenticated in Hauth. destruct (isEmpty B); now inversion Hauth. }
  subst u.
  rewrite (find_withoutOwner (buildFilter tza B q) s (buildFilter_owner tza B q)).
  destruct (find (buildFilter tza B q) s); [| reflexivity].
  destruct (ObjectId B) as [b|] eqn:Hoid; [| reflexivity].
  now rewrite (aggregate_withoutOwner B b _ s Hoid).
Qed.

Lemma getEdit_withoutOwner (id : nat) (s : Store) :
  getEdit (Some B) id (withoutOwner A s) = getEdit (Some B) id s.
Proof.
  unfold getEdit.
  destruct (isAuthenticated (Some B)) as [u|] eqn:Hauth; [| reflexivity].
  assert (Hu : u = B).
  { unfold isAuthenticated in Hauth. destruct (isEmpty B); now inversion Hauth. }
  subst u.
  rewrite (findOne_withoutOwner (byIdAndOwner id B) s eq_refl).
  now rewrite (find_withoutOwner (byOwner B) s eq_refl).
Qed.

Lemma getExportCsv_withoutOwner (tza : Z) (s : Store) :
  getExportCsv tza (Some B) (withoutOwner A s) = getExportCsv tza (Some B) s.
Proof.
  unfold getExportCsv.
  destruct (isAuthenticated (Some B)) as [u|] eqn:Hauth; [| reflexivity].
  assert (Hu : u = B).
  { unfold isAuthenticated in Hauth. destruct (isEmpty B); now inversion Hauth. }
  subst u.
  now rewrite (find_withoutOwner (byOwner B) s eq_refl).
Qed.

Lemma findOneAndUpdate_isolated (now : Z) (id : nat) (u : Update) (s : Store) :
  match findOneAndUpdate now (byIdAndOwner id B) u s with
  | Ok (s', r) =>
      ownedBy A s' = ownedBy A s
      /\ findOneAndUpdate now (byIdAndOwner id B) u (withoutOwner A s)
         = Ok (withoutOwner A s', r)
  | Throw e =>
      findOneAndUpdate now (byIdAndOwner id B) u (withoutOwner A s) = Throw e
  end.
Proof.
  unfold findOneAndUpdate.
  set (cf := {| cf_id := Some id; cf_userId := B; cf_date := None;
                cf_category := None |}).
  change (castFilter (byIdAndOwner id B)) with (Ok cf). cbn [bind].
  destruct (castUpdate u) as [cu|]; cbn [bind]; [| reflexivity].
  cbn [docs withoutOwner nextId].
  rewrite (find_first_notA cf (docs s) eq_refl).
  destruct (List.find (matches cf) (docs s)) as [d|] eqn:Hfind.
  - apply find_some in Hfind as [_ Hm]. apply matches_owner in Hm.
    split.
    + unfold ownedBy; simpl. apply replaceFirst_ownedBy; [reflexivity |].
      exact Hm.
    + unfold withoutOwner; simpl. do 2 f_equal.
      f_equal. apply replaceFirst_notA; [reflexivity | exact Hm].
  - split; reflexivity.
Qed.

Lemma findOneAndDelete_isolated (id : nat) (s : Store) :
  match findOneAndDelete (byIdAndOwner id B) s with
  | Ok (s', r) =>
      ownedBy A s' = ownedBy A s
      /\ findOneAndDelete (byIdAndOwner id B) (withoutOwner A s)
         = Ok (withoutOwner A s', r)
  | Throw e =>
      findOneAndDelete (byIdAndOwner id B) (withoutOwner A s) = Throw e
  end.
Proof.
  unfold findOneAndDelete.
  set (cf := {| cf_id := Some id; cf_userId := B; cf_date := None;
                cf_category := None |}).
  change (castFilter (byIdAndOwner id B)) with (Ok cf). cbn [bind].
  cbn [docs withoutOwner nextId].
  rewrite (find_first_notA cf (docs s) eq_refl).
  destruct (List.find (matches cf) (docs s)) as [d|] eqn:Hfind.
  - split.
    + unfold ownedBy; simpl. now apply removeFirst_ownedBy.
    + unfold withoutOwner; simpl. do 2 f_equal.
      f_equal. now apply removeFirst_notA.
  - split; reflexivity.
Qed.

End Isolation.

Lemma isAuthenticated_some (u v : string) :
  isAuthenticated (Some u) = Some v -> v = u.
Proof.
  unfold isAuthenticated. destruct (isEmpty u); intros H; now inversion H.
Qed.

Lemma postUpdate_isolated (A B : string) (tza now : Z) (id : nat)
  (body : Body) (s : Store) :
  A <> B ->
  ownedBy A (fst (postUpdate tza now (Some B) id body s)) = ownedBy A s
  /\ postUpdate tza now (Some B) id body (withoutOwner A s)
     = (withoutOwner A (fst (postUpdate tza now (Some B) id body s)),
        snd (postUpdate tza now (Some B) id body s)).
Proof.
  intros HAB. unfold postUpdate.
  destruct (isAuthenticated (Some B)) as [u|] eqn:Hauth;
    [| split; reflexivity].
  apply isAuthenticated_some in Hauth. subst u.
  set (upd := {| u_type := b_type body; u_category := b_category body;
                 u_amount := parseFloat_opt (b_amount body);
                 u_note := b_note body;
                 u_date := parseDate_opt tza (b_date body) |}).
  pose proof (findOneAndUpdate_isolated A B HAB now id upd s) as H.
  destruct (findOneAndUpdate now (byIdAndOwner id B) upd s)
    as [[s' [d|]]|e].
  - destruct H as [H1 H2]. rewrite H2. split; [exact H1 | reflexivity].
  - destruct H as [H1 H2]. rewrite H2. split; reflexivity.
  - rewrite H. split; reflexivity.
Qed.

Lemma postDelete_isolated (A B : string) (id : nat) (s : Store) :
  A <> B ->
  ownedBy A (fst (postDelete (Some B) id s)) = ownedBy A s
  /\ postDelete (Some B) id (withoutOwner A s)
     = (withoutOwner A (fst (postDelete (Some B) id s)),
        snd (postDelete (Some B) id s)).
Proof.
  intros HAB. unfold postDelete.
  destruct (isAuthenticated (Some B)) as [u|] eqn:Hauth;
    [| split; reflexivity].
  apply isAuthenticated_some in Hauth. subst u.
  pose proof (findOneAndDelete_isolated A B HAB id s) as H.
  destruct (findOneAndDelete (byIdAndOwner id B) s) as [[s' [d|]]|e].
  - destruct H as [H1 H2]. rewrite H2. split; [exact H1 | reflexivity].
  - destruct H as [H1 H2]. rewrite H2. split; reflexivity.
  - rewrite H. split; reflexivity.
Qed.

(** What [find] returns is owned by the owner of the filter, also after
    sorting. *)
Lemma find_only_owner (f : Filter) (s : Store) (l : list Transaction) :
  find f s = Ok l -> Forall (fun d => userId d = f_userId f) l.
Proof.
  unfold find. destruct (castFilter f) as [cf|] eqn:Hcf; [| discriminate].
  simpl. intros H. injection H as <-.
  apply Forall_forall. intros d Hd. apply filter_In in Hd as [_ Hm].
  rewrite <- (castFilter_owner f cf Hcf). now apply matches_owner.
Qed.

Lemma dashboard_lists_own (tza now : Z) (B : string) (q : Query) (s : Store)
  (v : IndexView) :
  getDashboard tza now (Some B) q s = Render v ->
  Forall (fun d => userId d = B) (v_transactions v).
Proof.
  unfold getDashboard, loginRedirect.
  destruct (isAuthenticated (Some B)) as [u|] eqn:Hauth; [| discriminate].
  apply isAuthenticated_some in Hauth. subst u.
  destruct (find (buildFilter tza B q) s) as [found|] eqn:Hfind;
    [| discriminate].
  destruct (ObjectId B); [| discriminate].
  intros H. injection H as <-. cbn [v_transactions].
  apply find_only_owner in Hfind. rewrite buildFilter_owner in Hfind.
  apply (Permutation_Forall (sortBy_perm dateCreatedDesc found) Hfind).
Qed.

(** What the add route stores belongs to the user of the session. *)
Lemma postAdd_owner (tza now : Z) (A : string) (body : Body) (s s' : Store) :
  postAdd tza now (Some A) body s = (s', Redirect "/") ->
  exists d, docs s' = (docs s ++ [d])%list /\ userId d = A.
Proof.
  unfold postAdd.
  destruct (isAuthenticated (Some A)) as [u|] eqn:Hauth.
  2:{ not_home. }
  apply isAuthenticated_some in Hauth. subst u.
  destruct (b_amount body) as [a|], (b_date body) as [dt|];
    try not_home.
  destruct (negb (truthy (b_type body)) || negb (truthy (b_category body))
            || negb (truthy (Some a)) || negb (truthy (Some dt))).
  { not_home. }
  unfold save.
  match goal with
  | |- context [validate ?i] => destruct (validate i) as [| e es] eqn:Hv
  end.
  - match goal with
    | |- context [toDocument ?n ?t ?i] =>
        destruct (toDocument n t i) as [d|] eqn:Hdoc
    end.
    + intros H. injection H as <-. exists d. split; [reflexivity |].
      unfold toDocument in Hdoc. simpl in Hdoc.
      destruct (b_type body), (b_category body), (parseFloat a),
        (parseDate tza dt), (b_note body); try discriminate;
        injection Hdoc as <-; reflexivity.
    + not_home.
  - not_home.
Qed.

(** C7.  Let [A] and [B] be distinct owners.  What the add route stores
    for [A] is owned by [A].  Every route that reads on behalf of [B] (the
    dashboard with its find and its aggregation under any query, the edit
    page, the export) answers the same whether or not the transactions of
    [A] are in the store; and an update or a delete on behalf of [B], for
    any id and any form, leaves the transactions of [A] as they were and
    acts the same on the store without them. *)
Theorem ownership_isolation (A B : string) (s : Store) :
  A <> B ->
  (forall tza now body s',
     postAdd tza now (Some A) body s = (s', Redirect "/") ->
     exists d, docs s' = (docs s ++ [d])%list /\ userId d = A)
  /\ (forall tza now q v,
        getDashboard tza now (Some B) q s = Render v ->
        Forall (fun d => userId d <> A) (v_transactions v))
  /\ (forall tza now q,
        getDashboard tza now (Some B) q (withoutOwner A s)
        = getDashboard tza now (Some B) q s)
  /\ (forall id, getEdit (Some B) id (withoutOwner A s) = getEdit (Some B) id s)
  /\ (forall tza,
        getExportCsv tza (Some B) (withoutOwner A s)
        = getExportCsv tza (Some B) s)
  /\ (forall tza now id body,
        ownedBy A (fst (postUpdate tza now (Some B) id body s)) = ownedBy A s
        /\ postUpdate tza now (Some B) id body (withoutOwner A s)
           = (withoutOwner A (fst (postUpdate tza now (Some B) id body s)),
              snd (postUpdate tza now (Some B) id body s)))
  /\ (forall id,
        ownedBy A (fst (postDelete (Some B) id s)) = ownedBy A s
        /\ postDelete (Some B) id (withoutOwner A s)
           = (withoutOwner A (fst (postDelete (Some B) id s)),
              snd (postDelete (Some B) id s))).
Proof.
  intros HAB.
  split; [intros tza now body s'; apply postAdd_owner |].
  split.
  { intros tza now q v Hv.
    apply (Forall_impl _ (P := fun d => userId d = B)).
    - intros d Hd. congruence.
    - exact (dashboard_lists_own tza now B q s v Hv). }
  split; [intros; now apply getDashboard_withoutOwner |].
  split; [intros; now apply getEdit_withoutOwner |].
  split; [intros; now apply getExportCsv_withoutOwner |].
  split; [intros; now apply postUpdate_isolated |].
  intros; now apply postDelete_isolated.
Qed.

(** ** CSV export *)

Lemma append_assoc (a b c : string) : (a ++ b) ++ c = a ++ (b ++ c).
Proof.
  induction a as [| x a IH]; simpl; [reflexivity | now rewrite IH].
Qed.

Lemma length_append (a b : string) :
  String.length (a ++ b) = (String.length a + String.length b)%nat.
Proof.
  induction a as [| x a IH]; simpl; [reflexivity | now rewrite IH].
Qed.

(** *** Two decimal digits *)

Lemma isDigit_of_small (v : Z) :
  0 <= v < 10 -> isDigit (chr (Z.to_nat (48 + v))) = true.
Proof.
  intros Hv.
  assert (H : v = 0 \/ v = 1 \/ v = 2 \/ v = 3 \/ v = 4 \/ v = 5
              \/ v = 6 \/ v = 7 \/ v = 8 \/ v = 9) by lia.
  repeat (destruct H as [H | H]; [subst v; reflexivity |]).
  subst v; reflexivity.
Qed.

Lemma isDigit_not_point (c : ascii) :
  isDigit c = true -> Ascii.eqb c "." = false.
Proof.
  intros H. destruct (Ascii.eqb_spec c "."); [subst c; discriminate | reflexivity].
Qed.

Lemma isDigit_not_minus (c : ascii) :
  isDigit c = true -> Ascii.eqb c "-" = false.
Proof.
  intros H. destruct (Ascii.eqb_spec c "-"); [subst c; discriminate | reflexivity].
Qed.

Lemma digits_fuel_allDigits (fuel : nat) (n : Z) (acc : string) :
  0 <= n -> allDigits acc = true -> allDigits (digits_fuel fuel n acc) = true.
Proof.
  revert n acc.
  induction fuel as [| f IH]; intros n acc Hn Hacc; [exact Hacc |].
  assert (Hd : isDigit (chr (Z.to_nat (48 + n mod 10))) = true).
  { apply isDigit_of_small. apply Z.mod_pos_bound. lia. }
  cbn [digits_fuel]. cbv zeta.
  destruct (n <? 10).
  - cbn [allDigits]. now rewrite Hd, Hacc.
  - apply IH.
    + apply Z.div_pos; lia.
    + cbn [allDigits]. now rewrite Hd, Hacc.
Qed.

Lemma digits_fuel_length (fuel : nat) (n : Z) (acc : string) :
  (String.length acc < String.length (digits_fuel (S fuel) n acc))%nat.
Proof.
  revert n acc.
  induction fuel as [| f IH]; intros n acc.
  - simpl. destruct (n <? 10); simpl; lia.
  - change (digits_fuel (S (S f)) n acc)
      with (let acc' := String (chr (Z.to_nat (48 + n mod 10))) acc in
            if n <? 10 then acc' else digits_fuel (S f) (n / 10) acc').
    cbv zeta. destruct (n <? 10).
    + simpl; lia.
    + specialize (IH (n / 10) (String (chr (Z.to_nat (48 + n mod 10))) acc)).
      simpl String.length in IH at 1. lia.
Qed.

Lemma digits_allDigits (n : Z) : 0 <= n -> allDigits (digits n) = true.
Proof.
  intros Hn. unfold digits. now apply digits_fuel_allDigits.
Qed.

Lemma digits_nonempty (n : Z) : (1 <= String.length (digits n))%nat.
Proof.
  unfold digits.
  pose proof (digits_fuel_length (Z.to_nat (Z.log2 n)) n "") as H.
  simpl String.length in H at 1. lia.
Qed.

Lemma repeat_char_length (c : ascii) (k : nat) :
  String.length (repeat_char c k) = k.
Proof.
  induction k as [| k IH]; simpl; [reflexivity | now rewrite IH].
Qed.

Lemma allDigits_append (a b : string) :
  allDigits a = true -> allDigits b = true -> allDigits (a ++ b) = true.
Proof.
  intros Ha Hb. induction a as [| x a IH]; simpl in *; [exact Hb |].
  apply andb_prop in Ha as [Hx Ha]. now rewrite Hx, IH.
Qed.

Lemma repeat_zero_allDigits (k : nat) : allDigits (repeat_char "0" k) = true.
Proof.
  induction k as [| k IH]; simpl; [reflexivity | exact IH].
Qed.

Lemma padStart_digits (s : string) :
  allDigits s = true ->
  allDigits (padStart s 3 "0") = true
  /\ (3 <= String.length (padStart s 3 "0"))%nat.
Proof.
  intros Hs. unfold padStart. split.
  - apply allDigits_append; [apply repeat_zero_allDigits | exact Hs].
  - rewrite length_append, repeat_char_length. lia.
Qed.

Lemma pointBeforeLastTwo_cons (c : ascii) (r : string) :
  (2 <= String.length r)%nat ->
  pointBeforeLastTwo (String c r) = String c (pointBeforeLastTwo r).
Proof.
  intros Hr. unfold pointBeforeLastTwo.
  simpl String.length.
  replace (S (String.length r) - 2)%nat with (S (String.length r - 2)) by lia.
  reflexivity.
Qed.

Lemma pointThenTwo_tail (r : string) :
  allDigits r = true -> (2 <= String.length r)%nat ->
  pointThenTwo (pointBeforeLastTwo r) = true.
Proof.
  induction r as [| a r IH]; intros Hd Hlen; [simpl in Hlen; lia |].
  simpl in Hd. apply andb_prop in Hd as [Ha Hd].
  destruct r as [| b r']; [simpl in Hlen; lia |].
  destruct r' as [| c r''].
  - simpl in Hd. apply andb_prop in Hd as [Hb _].
    unfold pointBeforeLastTwo; simpl. now rewrite Ha, Hb.
  - rewrite pointBeforeLastTwo_cons by (simpl; lia).
    simpl pointThenTwo at 1. fold pointThenTwo.
    rewrite (isDigit_not_point a Ha), Ha. simpl.
    apply IH; [exact Hd | simpl; lia].
Qed.

Lemma pointBeforeLastTwo_twoDecimals (m : string) :
  allDigits m = true -> (3 <= String.length m)%nat ->
  twoDecimals (pointBeforeLastTwo m) = true
  /\ twoDecimals ("-" ++ pointBeforeLastTwo m) = true.
Proof.
  intros Hd Hlen.
  destruct m as [| c r]; [simpl in Hlen; lia |].
  simpl in Hd. apply andb_prop in Hd as [Hc Hd].
  assert (Hr : (2 <= String.length r)%nat) by (simpl in Hlen; lia).
  rewrite pointBeforeLastTwo_cons by exact Hr.
  pose proof (pointThenTwo_tail r Hd Hr) as Ht.
  split.
  - unfold twoDecimals. now rewrite (isDigit_not_minus c Hc), Hc, Ht.
  - simpl. now rewrite Hc, Ht.
Qed.

Lemma toFixed2_twoDecimals (x : Q) :
  (Qabs x < inject_Z pow10_21)%Q -> twoDecimals (toFixed2 x) = true.
Proof.
  intros Hx. unfold toFixed2.
  set (neg := Qle_bool x 0 && negb (Qeq_bool x 0)).
  set (a := if neg then (- x)%Q else x).
  assert (Ha : (0 <= a)%Q /\ (a <= Qabs x)%Q).
  { unfold a, neg.
    destruct (Qle_bool x 0) eqn:Hle; simpl.
    - apply Qle_bool_iff in Hle.
      destruct (Qeq_bool x 0) eqn:Heq; simpl.
      + apply Qeq_bool_iff in Heq. rewrite Heq. split; [apply Qle_refl |].
        apply Qabs_nonneg.
      + split.
        * apply (Qopp_le_compat x 0) in Hle. exact Hle.
        * rewrite (Qabs_neg x Hle). apply Qle_refl.
    - assert (Hpos : (0 <= x)%Q).
      { destruct (Qlt_le_dec 0 x) as [H | H]; [now apply Qlt_le_weak |].
        apply Qle_bool_iff in H. congruence. }
      split; [exact Hpos |]. rewrite (Qabs_pos x Hpos). apply Qle_refl. }
  destruct Ha as [Ha0 Ha1].
  destruct (Qle_bool (inject_Z pow10_21) a) eqn:Hbig.
  { apply Qle_bool_iff in Hbig. exfalso.
    apply (Qlt_not_le _ _ Hx). now apply Qle_trans with a. }
  cbv zeta.
  assert (Hn : 0 <= Qfloor (a * 100 + (1 # 2))).
  { change 0 with (Qfloor 0). apply Qfloor_resp_le.
    apply Qle_trans with (a * 100)%Q.
    - apply Qmult_le_0_compat; [exact Ha0 | discriminate].
    - rewrite <- (Qplus_0_r (a * 100)) at 1.
      apply Qplus_le_r. discriminate. }
  destruct (padStart_digits (digits (Qfloor (a * 100 + (1 # 2))))
              (digits_allDigits _ Hn)) as [Hd Hlen].
  destruct (pointBeforeLastTwo_twoDecimals _ Hd Hlen) as [Hplain Hminus].
  destruct neg; [exact Hminus | exact Hplain].
Qed.

(** *** The body *)



Lemma csvRow_fields (tza : Z) (t : Transaction) :
  csvRow tza t
  = formatDate tza (date t) ++ "," ++ toUpperCase (type t) ++ ","
    ++ str1 dquote ++ replace_dquotes (category t) ++ str1 dquote ++ ","
    ++ toFixed2 (amount t) ++ ","
    ++ str1 dquote ++ replace_dquotes (note t) ++ str1 dquote ++ ","
    ++ formatDate tza (createdAt t) ++ str1 newline.
Proof.
  unfold csvRow, quoted. cbn [join].
  now rewrite !append_assoc.
Qed.


(** The category of the specification, quoted. *)
Lemma quoted_cafeSpecial :
  quoted cafeSpecial
  = str1 dquote ++ "Café " ++ str1 dquote ++ str1 dquote ++ "Special"
    ++ str1 dquote ++ str1 dquote ++ str1 dquote.
Proof. reflexivity. Qed.




Lemma ownership_isolation_witness :
  U <> V
  /\ getDashboard 0 now1 (Some V) noFilters (withoutOwner U store4)
     = getDashboard 0 now1 (Some V) noFilters store4
  /\ getExportCsv 0 (Some V) (withoutOwner U store4)
     = getExportCsv 0 (Some V) store4
  /\ ownedBy U (fst (postUpdate 0 now1 (Some V) 1 negativeBody store4))
     = ownedBy U store4
  /\ ownedBy U (fst (postDelete (Some V) 1 store4)) = ownedBy U store4.
Proof.
  assert (H : U <> V) by discriminate.
  destruct (ownership_isolation U V store4 H)
    as (_ & _ & Hdash & _ & Hexp & Hupd & Hdel).
  split; [exact H |].
  split; [apply Hdash |].
  split; [apply Hexp |].
  split; [apply Hupd | apply Hdel].
Defined.

(** * Further properties *)

(** ** The email check *)

Import Email.

Lemma many_spec (cls : Z -> bool) (s : list Z) (k : list Z -> bool) :
  many cls s k = true <->
  exists u v, s = (u ++ v)%list
              /\ Forall (fun c => cls c = true) u /\ k v = true.
Proof.
  induction s as [| c t IH]; simpl.
  - split.
    + intros H. exists [], []. repeat split; [constructor | exact H].
    + intros (u & v & E & _ & Hk).
      symmetry in E. apply app_eq_nil in E as [-> ->]. exact Hk.
  - rewrite orb_true_iff, andb_true_iff, IH. split.
    + intros [[Hc (u & v & E & Hu & Hk)] | Hk].
      * exists (c :: u), v. subst t. repeat split; [constructor; assumption | exact Hk].
      * exists [], (c :: t). repeat split; [constructor | exact Hk].
    + intros (u & v & E & Hu & Hk).
      destruct u as [| x u'].
      * right. simpl in E. now subst v.
      * left. simpl in E. injection E as -> ->.
        inversion Hu; subst. split; [assumption |].
        exists u', v. repeat split; assumption.
Qed.

Lemma matchFrom_spec (r : regex) (s : list Z) (k : list Z -> bool) :
  matchFrom r s k = true <->
  exists u v, s = (u ++ v)%list /\ lang r u /\ k v = true.
Proof.
  revert s k. induction r as [cls | c | r1 IH1 r2 IH2]; intros s k; simpl.
  - destruct s as [| x t].
    + split; [discriminate |].
      intros (u & v & E & [Hne _] & _).
      symmetry in E. apply app_eq_nil in E as [-> _]. contradiction.
    + rewrite andb_true_iff, many_spec. split.
      * intros [Hx (u & v & E & Hu & Hk)].
        exists (x :: u), v. subst t.
        repeat split; [discriminate | constructor; assumption | exact Hk].
      * intros (u & v & E & [Hne Hu] & Hk).
        destruct u as [| y u']; [contradiction |].
        simpl in E. injection E as -> ->. inversion Hu; subst.
        split; [assumption |]. exists u', v. repeat split; assumption.
  - destruct s as [| x t].
    + split; [discriminate |].
      intros (u & v & E & -> & _). discriminate.
    + rewrite andb_true_iff, Z.eqb_eq. split.
      * intros [-> Hk]. exists [c], t. repeat split. exact Hk.
      * intros (u & v & E & -> & Hk). simpl in E. injection E as -> ->.
        split; [reflexivity | exact Hk].
  - rewrite IH1. split.
    + intros (u1 & v1 & E & H1 & H2). apply IH2 in H2 as (u2 & v & E2 & H2 & Hk).
      exists (u1 ++ u2)%list, v. subst. rewrite app_assoc.
      repeat split; [| exact Hk]. exists u1, u2. repeat split; assumption.
    + intros (u & v & E & (u1 & u2 & -> & H1 & H2) & Hk).
      exists u1, (u2 ++ v)%list. rewrite <- app_assoc in E.
      repeat split; [exact E | exact H1 |].
      apply IH2. exists u2, v. repeat split; assumption.
Qed.

Lemma test_spec (r : regex) (s : list Z) : test r s = true <-> lang r s.
Proof.
  unfold test. rewrite matchFrom_spec. split.
  - intros (u & v & E & Hu & Hk). destruct v; [| discriminate].
    rewrite app_nil_r in E. now subst.
  - intros H. exists s, []. rewrite app_nil_r. repeat split. exact H.
Qed.

Lemma lang_re (s : list Z) : lang re s <-> emailShape s.
Proof.
  unfold re, emailShape, part. simpl. split.
  - intros (a & r1 & -> & Ha & x & r2 & -> & -> & b & r3 & -> & Hb & y & c
            & -> & -> & Hc).
    exists a, b, c. repeat split; try tauto.
  - intros (a & b & c & -> & Ha & Hb & Hc).
    exists a, ([at_sign] ++ b ++ [dot] ++ c)%list. repeat split; try tauto.
    exists [at_sign], (b ++ [dot] ++ c)%list. repeat split.
    exists b, ([dot] ++ c)%list. repeat split; try tauto.
    exists [dot], c. repeat split; tauto.
Qed.

Lemma lowerUnit_class (c : Z) :
  notSpaceNorAt (lowerUnit c) = notSpaceNorAt c.
Proof.
  unfold lowerUnit.
  destruct ((65 <=? c) && (c <=? 90)) eqn:H; [| reflexivity].
  apply andb_prop in H as [H1 H2]. apply Z.leb_le in H1, H2.
  unfold notSpaceNorAt, isWhiteSpace, at_sign.
  repeat match goal with
         | |- context [?a <=? ?b] => destruct (Z.leb_spec a b); try lia
         | |- context [?a =? ?b] => destruct (Z.eqb_spec a b); try lia
         end; reflexivity.
Qed.

Lemma lowerUnit_mark (c x : Z) :
  x = at_sign \/ x = dot -> (lowerUnit c = x <-> c = x).
Proof.
  unfold lowerUnit, at_sign, dot. intros Hx.
  destruct (Z.leb_spec 65 c), (Z.leb_spec c 90); simpl; lia.
Qed.

Lemma part_lower (u : list Z) : part (map lowerUnit u) <-> part u.
Proof.
  unfold part. split; intros [Hne Hall]; split.
  - intros ->. now apply Hne.
  - rewrite Forall_map in Hall.
    eapply Forall_impl; [| exact Hall]. intros c Hc. now rewrite <- lowerUnit_class.
  - intros E. apply map_eq_nil in E. contradiction.
  - rewrite Forall_map.
    eapply Forall_impl; [| exact Hall]. intros c Hc. now rewrite lowerUnit_class.
Qed.

Lemma emailShape_lower (s : list Z) :
  emailShape (map lowerUnit s) <-> emailShape s.
Proof.
  unfold emailShape. split.
  - intros (a & b & c & E & Ha & Hb & Hc).
    apply map_eq_app in E as (a' & r1 & -> & <- & E).
    apply map_eq_app in E as (x & r2 & -> & Ex & E).
    apply map_eq_app in E as (b' & r3 & -> & <- & E).
    apply map_eq_app in E as (y & c' & -> & Ey & <-).
    destruct x as [| x [| ? ?]]; try discriminate.
    destruct y as [| y [| ? ?]]; try discriminate.
    simpl in Ex, Ey. injection Ex as Ex. injection Ey as Ey.
    apply (proj1 (lowerUnit_mark x at_sign (or_introl eq_refl))) in Ex.
    apply (proj1 (lowerUnit_mark y dot (or_intror eq_refl))) in Ey. subst x y.
    exists a', b', c'. rewrite part_lower in Ha, Hb, Hc. tauto.
  - intros (a & b & c & -> & Ha & Hb & Hc).
    exists (map lowerUnit a), (map lowerUnit b), (map lowerUnit c).
    rewrite !map_app, !part_lower.
    split; [reflexivity | tauto].
Qed.

Lemma validateEmail_iff (s : list Z) :
  validateEmail (Some s) = true <-> emailShape s.
Proof.
  unfold validateEmail, toText.
  now rewrite test_spec, lang_re, emailShape_lower.
Qed.

(** X1.  [validateEmail] accepts a text exactly when it is a local part,
    an at sign, a domain, a dot and an ending, where the three parts are
    not empty and hold neither white space nor an at sign; an email that
    is undefined is refused. *)
Theorem validateEmail_shape (s : list Z) :
  (validateEmail (Some s) = true <-> emailShape s)
  /\ validateEmail None = false.
Proof.
  split; [apply validateEmail_iff | reflexivity].
Qed.

Lemma countOf_app (x : Z) (u v : list Z) :
  countOf x (u ++ v) = (countOf x u + countOf x v)%nat.
Proof.
  induction u as [| c t IH]; simpl; [reflexivity |].
  destruct (c =? x); simpl; now rewrite IH.
Qed.

Lemma part_facts (u : list Z) :
  part u ->
  countOf at_sign u = O
  /\ Forall (fun c => isWhiteSpace c = false) u
  /\ (1 <= List.length u)%nat.
Proof.
  intros [Hne Hall]. repeat split.
  - induction Hall as [| c t Hc _ IH]; simpl; [reflexivity |].
    unfold notSpaceNorAt in Hc. apply andb_prop in Hc as [_ Hc].
    destruct (c =? at_sign); [discriminate |].
    destruct t; [reflexivity | apply IH; discriminate].
  - eapply Forall_impl; [| exact Hall]. intros c Hc.
    unfold notSpaceNorAt in Hc. apply andb_prop in Hc as [Hc _].
    now destruct (isWhiteSpace c).
  - destruct u; [contradiction | simpl; lia].
Qed.

(** X2.  An accepted email holds exactly one at sign and no white space,
    has a non-empty part before the at sign and, after it, at least three
    units with a dot among them. *)
Theorem validateEmail_accepts_only (s : list Z) :
  validateEmail (Some s) = true ->
  countOf at_sign s = 1%nat
  /\ Forall (fun c => isWhiteSpace c = false) s
  /\ exists a d,
       s = (a ++ [at_sign] ++ d)%list
       /\ a <> [] /\ In dot d /\ (3 <= List.length d)%nat.
Proof.
  intros H. apply validateEmail_iff in H as (a & b & c & -> & Ha & Hb & Hc).
  pose proof Ha as [Hane _].
  apply part_facts in Ha as (Ha1 & Ha2 & Ha3).
  apply part_facts in Hb as (Hb1 & Hb2 & Hb3).
  apply part_facts in Hc as (Hc1 & Hc2 & Hc3).
  split; [| split].
  - rewrite !countOf_app, Ha1, Hb1, Hc1. reflexivity.
  - repeat (apply Forall_app; split); try assumption; repeat constructor.
  - exists a, (b ++ [dot] ++ c)%list.
    split; [reflexivity |]. split; [exact Hane |]. split.
    + apply in_or_app. right. now left.
    + rewrite !length_app. simpl. lia.
Qed.

Lemma validateEmail_accepts_only_witness :
  countOf at_sign (units "Ann@Example.org") = 1%nat
  /\ Forall (fun c => isWhiteSpace c = false) (units "Ann@Example.org")
  /\ exists a d,
       units "Ann@Example.org" = (a ++ [at_sign] ++ d)%list
       /\ a <> [] /\ In dot d /\ (3 <= List.length d)%nat.
Proof.
  apply (validateEmail_accepts_only (units "Ann@Example.org")).
  vm_compute. reflexivity.
Defined.

(** ** The login gate *)

(** X3.  A request without a user in its session (none, or an empty id)
    is answered by every protected route with the redirect to the login
    page, and the store stays as it was. *)
Theorem protected_routes_require_login (session : option string)
  (tza now : Z) (q : Query) (id : nat) (body : Body) (s : Store) :
  session = None \/ session = Some "" ->
  let login :=
    Redirect "/login?error=Please%20log%20in%20to%20view%20the%20dashboard." in
  getDashboard tza now session q s = login
  /\ getEdit session id s = login
  /\ getExportCsv tza session s = login
  /\ postAdd tza now session body s = (s, login)
  /\ postUpdate tza now session id body s = (s, login)
  /\ postDelete session id s = (s, login).
Proof.
  intros [-> | ->]; repeat split.
Qed.

Lemma protected_routes_require_login_witness :
  getDashboard 0 now1 None noFilters store1
  = Redirect "/login?error=Please%20log%20in%20to%20view%20the%20dashboard."
  /\ postDelete None 1 store1
     = (store1,
        Redirect "/login?error=Please%20log%20in%20to%20view%20the%20dashboard.").
Proof.
  destruct (protected_routes_require_login None 0 now1 noFilters 1
              negativeBody store1 (or_introl eq_refl))
    as (H1 & _ & _ & _ & _ & H6).
  split; [exact H1 | exact H6].
Defined.

(** ** Adding a transaction *)

Lemma truthy_false (v : option string) :
  truthy v = false <-> v = None \/ v = Some "".
Proof.
  destruct v as [[| c r]|]; simpl; split; intros H;
    try discriminate; try tauto; try (now right); try (now left);
    destruct H as [H | H]; discriminate.
Qed.

(** X4.  When the type, the category, the amount or the date of the form
    is missing or empty, the add route answers with the redirect carrying
    Missing required fields and stores nothing. *)
Theorem postAdd_missing_field (tza now : Z) (u : string) (body : Body)
  (s : Store) :
  u <> "" ->
  truthy (b_type body) = false \/ truthy (b_category body) = false
  \/ truthy (b_amount body) = false \/ truthy (b_date body) = false ->
  postAdd tza now (Some u) body s
  = (s, Redirect "/?error=Missing%20required%20fields.").
Proof.
  intros Hu H. unfold postAdd. rewrite (isAuthenticated_nonempty u Hu).
  destruct (b_amount body) as [a|] eqn:Ha, (b_date body) as [d|] eqn:Hd;
    try reflexivity.
  destruct H as [H | [H | [H | H]]]; rewrite H; simpl;
    rewrite ?orb_true_r; reflexivity.
Qed.

Lemma postAdd_missing_field_witness :
  postAdd 0 now1 (Some U)
    {| b_type := Some "income"; b_category := Some ""; b_amount := Some "5";
       b_note := None; b_date := Some "2024-01-15" |} store1
  = (store1, Redirect "/?error=Missing%20required%20fields.").
Proof.
  apply postAdd_missing_field; [discriminate |].
  right. left. reflexivity.
Defined.

(** Refutes an equation between two answers that differ. *)
Ltac other_answer :=
  let E := fresh "E" in
  intros E;
  first [ discriminate E
        | injection E as E; vm_compute in E; discriminate E ].

Lemma save_effect (now : Z) (i : TransactionInput) (s s' : Store)
  (d : Transaction) :
  save now i s = Ok (s', d) ->
  validate i = []
  /\ toDocument (nextId s) now i = Some d
  /\ s' = {| docs := (docs s ++ [d])%list; nextId := S (nextId s) |}.
Proof.
  unfold save. destruct (validate i) as [| e es]; [| discriminate].
  destruct (toDocument (nextId s) now i) as [d'|]; [| discriminate].
  intros H. injection H as <- <-. repeat split.
Qed.



(** ** Updating, deleting and editing one transaction *)

Lemma matches_id_owner (id : nat) (u : string) (d : Transaction) :
  matches {| cf_id := Some id; cf_userId := u; cf_date := None;
             cf_category := None |} d = true
  <-> _id d = id /\ userId d = u.
Proof.
  unfold matches; simpl. rewrite !andb_true_r, andb_true_iff.
  now rewrite Nat.eqb_eq, String.eqb_eq.
Qed.

Lemma find_first_split (p : Transaction -> bool) (l : list Transaction)
  (d : Transaction) :
  List.find p l = Some d ->
  exists l1 l2,
    l = (l1 ++ d :: l2)%list /\ p d = true
    /\ Forall (fun x => p x = false) l1
    /\ (forall d', replaceFirst p d' l = (l1 ++ d' :: l2)%list)
    /\ removeFirst p l = (l1 ++ l2)%list.
Proof.
  induction l as [| x r IH]; simpl; [discriminate |].
  destruct (p x) eqn:Hx.
  - intros H. injection H as <-. exists [], r. repeat split; auto.
  - intros H. destruct (IH H) as (l1 & l2 & -> & Hd & Hl1 & Hrep & Hrem).
    exists (x :: l1), l2. repeat split; auto.
    + intros d'. simpl. now rewrite Hrep.
    + simpl. now rewrite Hrem.
Qed.

Lemma find_first_none (p : Transaction -> bool) (l : list Transaction) :
  List.find p l = None <-> Forall (fun x => p x = false) l.
Proof.
  induction l as [| x r IH]; simpl.
  - split; [constructor | reflexivity].
  - destruct (p x) eqn:Hx.
    + split; [discriminate |]. intros H. inversion H; congruence.
    + rewrite IH. split; intros H; [now constructor | now inversion H].
Qed.

Lemma findOneAndUpdate_byId (now : Z) (id : nat) (u : string) (upd : Update)
  (s : Store) :
  findOneAndUpdate now (byIdAndOwner id u) upd s
  = match castUpdate upd with
    | Throw e => Throw e
    | Ok cu =>
        let p := matches {| cf_id := Some id; cf_userId := u;
                            cf_date := None; cf_category := None |} in
        match List.find p (docs s) with
        | None => Ok (s, None)
        | Some d =>
            Ok ({| docs := replaceFirst p (applyUpdate now cu d) (docs s);
                   nextId := nextId s |}, Some d)
        end
    end.
Proof. unfold findOneAndUpdate. simpl. now destruct (castUpdate upd). Qed.





Lemma findOneAndDelete_byId (id : nat) (u : string) (s : Store) :
  findOneAndDelete (byIdAndOwner id u) s
  = let p := matches {| cf_id := Some id; cf_userId := u;
                        cf_date := None; cf_category := None |} in
    match List.find p (docs s) with
    | None => Ok (s, None)
    | Some d =>
        Ok ({| docs := removeFirst p (docs s); nextId := nextId s |}, Some d)
    end.
Proof. reflexivity. Qed.

(** X8.  The delete route either finds no transaction with the id of the
    request and the owner of the session, answers with the redirect
    carrying Delete failed and leaves the store as it was; or answers
    with the redirect to the dashboard and removes exactly one
    transaction, the first with that id and owner, keeping all others in
    their order. *)
Theorem postDelete_effect (u : string) (id : nat) (s : Store) :
  u <> "" ->
  (Forall (fun d => ~ (_id d = id /\ userId d = u)) (docs s)
   /\ postDelete (Some u) id s = (s, Redirect "/?error=Delete%20failed."))
  \/ (exists l1 d l2,
        docs s = (l1 ++ d :: l2)%list
        /\ _id d = id /\ userId d = u
        /\ Forall (fun x => ~ (_id x = id /\ userId x = u)) l1
        /\ postDelete (Some u) id s
           = ({| docs := (l1 ++ l2)%list; nextId := nextId s |}, Redirect "/")).
Proof.
  intros Hu. unfold postDelete. rewrite (isAuthenticated_nonempty u Hu).
  rewrite findOneAndDelete_byId. cbv zeta.
  match goal with
  | |- context [List.find ?p (docs s)] =>
      destruct (List.find p (docs s)) as [d|] eqn:Hfind
  end.
  - right.
    destruct (find_first_split _ _ _ Hfind) as (l1 & l2 & Hl & Hd & Hl1 & _ & Hrem).
    apply matches_id_owner in Hd as [Hid Hown].
    exists l1, d, l2. rewrite Hrem. repeat split; try assumption.
    eapply Forall_impl; [| exact Hl1]. intros x Hx Hm.
    apply matches_id_owner in Hm. congruence.
  - left. split; [| reflexivity].
    apply find_first_none in Hfind.
    eapply Forall_impl; [| exact Hfind]. intros x Hx Hm.
    apply matches_id_owner in Hm. congruence.
Qed.

Lemma postDelete_effect_witness :
  exists l1 d l2,
    docs store1 = (l1 ++ d :: l2)%list
    /\ _id d = 1%nat /\ userId d = U
    /\ postDelete (Some U) 1 store1
       = ({| docs := (l1 ++ l2)%list; nextId := nextId store1 |}, Redirect "/").
Proof.
  destruct (postDelete_effect U 1 store1)
    as [[_ H] | (l1 & d & l2 & Hl & Hid & Hu & _ & H)].
  - discriminate.
  - vm_compute in H. discriminate H.
  - exists l1, d, l2. repeat split; assumption.
Defined.

Lemma removeFirst_incl (p : Transaction -> bool) (l : list Transaction) :
  incl (removeFirst p l) l.
Proof.
  induction l as [| x r IH]; simpl; [apply incl_refl |].
  destruct (p x); [apply incl_tl, incl_refl |].
  intros y [-> | Hy]; [now left | right; now apply IH].
Qed.

(** X9.  When every stored transaction satisfies the invariants of the
    schema (an amount of at least 0.01, a type that is income or expense),
    this is still so after the add route and after the delete route,
    whatever the request. *)
Theorem add_and_delete_keep_invariants (tza now : Z)
  (session : option string) (id : nat) (body : Body) (s : Store) :
  allValid s ->
  allValid (fst (postAdd tza now session body s))
  /\ allValid (fst (postDelete session id s)).
Proof.
  unfold allValid. intros Hs. split.
  - unfold postAdd.
    destruct (isAuthenticated session) as [u|]; [| exact Hs].
    destruct (b_amount body) as [a|], (b_date body) as [dt|]; try exact Hs.
    destruct (negb (truthy (b_type body)) || negb (truthy (b_category body))
              || negb (truthy (Some a)) || negb (truthy (Some dt)));
      [exact Hs |].
    match goal with
    | |- context [save now ?i s] =>
        destruct (save now i s) as [[s1 d]|e] eqn:Hsave
    end; [| exact Hs].
    pose proof (save_invariant _ _ _ _ _ Hsave) as Hd.
    apply save_effect in Hsave as (_ & _ & ->). simpl.
    apply Forall_app. split; [exact Hs | now constructor].
  - unfold postDelete.
    destruct (isAuthenticated session) as [u|]; [| exact Hs].
    rewrite findOneAndDelete_byId. cbv zeta.
    match goal with
    | |- context [List.find ?p (docs s)] => destruct (List.find p (docs s))
    end; [| exact Hs].
    simpl. rewrite Forall_forall in *. intros x Hx.
    apply Hs. exact (removeFirst_incl _ _ x Hx).
Qed.

Lemma add_and_delete_keep_invariants_witness :
  allValid (fst (postAdd 0 now1 (Some U) march31Body store1))
  /\ allValid (fst (postDelete (Some U) 1 store1)).
Proof.
  apply add_and_delete_keep_invariants.
  unfold allValid. repeat constructor.
Defined.

Lemma replaceFirst_map {B : Type} (f : Transaction -> B)
  (p : Transaction -> bool) (d d' : Transaction) (l : list Transaction) :
  List.find p l = Some d -> f d' = f d ->
  map f (replaceFirst p d' l) = map f l.
Proof.
  intros Hfind Hf.
  destruct (find_first_split p l d Hfind) as (l1 & l2 & -> & _ & _ & Hrep & _).
  rewrite Hrep, !map_app. simpl. now rewrite Hf.
Qed.

(** X10.  Whatever the request, the update route changes neither the
    number of transactions, nor the id, the owner or the creation time of
    any of them, in their order. *)
Theorem postUpdate_keeps_identity (tza now : Z) (session : option string)
  (id : nat) (body : Body) (s : Store) :
  let s' := fst (postUpdate tza now session id body s) in
  map _id (docs s') = map _id (docs s)
  /\ map userId (docs s') = map userId (docs s)
  /\ map createdAt (docs s') = map createdAt (docs s)
  /\ List.length (docs s') = List.length (docs s).
Proof.
  cbv zeta. unfold postUpdate.
  destruct (isAuthenticated session) as [u|]; [| repeat split].
  rewrite findOneAndUpdate_byId.
  match goal with
  | |- context [castUpdate ?x] => destruct (castUpdate x) as [cu|]
  end; [| repeat split].
  cbv zeta.
  match goal with
  | |- context [List.find ?p (docs s)] =>
      destruct (List.find p (docs s)) as [d|] eqn:Hfind
  end; [| repeat split].
  cbn [fst docs].
  assert (Hid : map _id (replaceFirst
                  (matches {| cf_id := Some id; cf_userId := u;
                              cf_date := None; cf_category := None |})
                  (applyUpdate now cu d) (docs s)) = map _id (docs s))
    by (now apply (replaceFirst_map _id _ d)).
  split; [exact Hid |].
  split; [now apply (replaceFirst_map userId _ d) |].
  split; [now apply (replaceFirst_map createdAt _ d) |].
  rewrite <- (length_map _id), Hid. apply length_map.
Qed.

Lemma no_match_without_id (id : nat) (u : string) (l : list Transaction) :
  ~ In id (map _id l) ->
  List.find (matches {| cf_id := Some id; cf_userId := u; cf_date := None;
                        cf_category := None |}) l = None.
Proof.
  intros Hnot. apply find_first_none. apply Forall_forall. intros x Hx.
  destruct (matches _ x) eqn:Hm; [| reflexivity].
  apply matches_id_owner in Hm as [Hid _].
  exfalso. apply Hnot. rewrite <- Hid. now apply in_map.
Qed.

(** X11.  When the ids of the store are distinct and the delete route has
    answered with the redirect to the dashboard, the transaction is gone
    for its owner: the edit page of that id answers 404, a second delete
    answers Delete failed and changes nothing, and the ids of the store
    are still distinct. *)
Theorem deleted_is_gone (u : string) (id : nat) (s s' : Store) :
  NoDup (map _id (docs s)) ->
  postDelete (Some u) id s = (s', Redirect "/") ->
  getEdit (Some u) id s' = Send 404 "Transaction not found or unauthorized."
  /\ postDelete (Some u) id s' = (s', Redirect "/?error=Delete%20failed.")
  /\ NoDup (map _id (docs s')).
Proof.
  intros Hnd. unfold postDelete at 1.
  destruct (isAuthenticated (Some u)) as [u'|] eqn:Hauth; [| other_answer].
  pose proof (isAuthenticated_some _ _ Hauth) as ->.
  rewrite findOneAndDelete_byId. cbv zeta.
  match goal with
  | |- context [List.find ?p (docs s)] =>
      destruct (List.find p (docs s)) as [d|] eqn:Hfind
  end; [| other_answer].
  intros H. injection H as <-.
  destruct (find_first_split _ _ _ Hfind) as (l1 & l2 & Hl & Hd & _ & _ & Hrem).
  apply matches_id_owner in Hd as [Hid _].
  rewrite Hl, map_app in Hnd. simpl in Hnd.
  pose proof (NoDup_remove_1 _ _ _ Hnd) as Hnd'.
  pose proof (NoDup_remove_2 _ _ _ Hnd) as Hnot.
  rewrite Hid, <- map_app, <- Hrem in Hnot.
  rewrite <- map_app, <- Hrem in Hnd'.
  pose proof (no_match_without_id id u _ Hnot) as Hnone.
  split; [| split].
  - unfold getEdit, findOne. rewrite Hauth. simpl. now rewrite Hnone.
  - unfold postDelete. rewrite Hauth, findOneAndDelete_byId. cbv zeta.
    cbn [docs]. now rewrite Hnone.
  - exact Hnd'.
Qed.

Lemma deleted_is_gone_witness :
  getEdit (Some U) 1 (fst (postDelete (Some U) 1 store1))
  = Send 404 "Transaction not found or unauthorized."
  /\ NoDup (map _id (docs (fst (postDelete (Some U) 1 store1)))).
Proof.
  destruct (deleted_is_gone U 1 store1 (fst (postDelete (Some U) 1 store1)))
    as (H1 & _ & H3).
  - repeat constructor; simpl; intuition discriminate.
  - vm_compute. reflexivity.
  - split; assumption.
Defined.

Lemma ownedBy_app (u : string) (s : Store) (d : Transaction) (n : nat) :
  userId d = u ->
  ownedBy u {| docs := (docs s ++ [d])%list; nextId := n |}
  = (ownedBy u s ++ [d])%list.
Proof.
  intros Hu. unfold ownedBy. simpl. rewrite filter_app. simpl.
  rewrite Hu, String.eqb_refl. reflexivity.
Qed.



(** ** The list and the summary of the dashboard *)

Lemma dateCreatedDesc_total (a b : Transaction) :
  dateCreatedDesc a b = false -> dateCreatedDesc b a = true.
Proof.
  unfold dateCreatedDesc.
  destruct (Z.ltb_spec (date b) (date a)), (Z.ltb_spec (date a) (date b)),
    (Z.eqb_spec (date a) (date b)), (Z.eqb_spec (date b) (date a)),
    (Z.leb_spec (createdAt b) (createdAt a)),
    (Z.leb_spec (createdAt a) (createdAt b)); simpl; intros Hab;
    try reflexivity; try discriminate; lia.
Qed.

Lemma sortBy_newerFirst (l : list Transaction) :
  Sorted newerFirst (sortBy dateCreatedDesc l).
Proof.
  pose proof (sortBy_sorted dateCreatedDesc dateCreatedDesc_total l) as Hs.
  induction Hs as [| a r Hr IH Hhd]; constructor; [exact IH |].
  destruct Hhd as [| b r' Hab]; constructor.
  unfold newerFirst. unfold dateCreatedDesc in Hab.
  apply orb_prop in Hab as [Hab | Hab].
  - left. now apply Z.ltb_lt.
  - right. apply andb_prop in Hab as [H1 H2].
    apply Z.eqb_eq in H1. apply Z.leb_le in H2. now split.
Qed.

Lemma selects_matches (tza : Z) (u : string) (q : Query) (cf : CastFilter)
  (d : Transaction) :
  castFilter (buildFilter tza u q) = Ok cf ->
  (matches cf d = true <-> selects tza u q d).
Proof.
  intros Hcf.
  assert (Hid : cf_id cf = None /\ cf_userId cf = u
                /\ cf_category cf = f_category (buildFilter tza u q)).
  { unfold castFilter in Hcf.
    destruct (f_date (buildFilter tza u q)) as [[[lo|] [hi|]]|];
      inversion Hcf; repeat split. }
  destruct Hid as (Hid & Hown & Hcat).
  assert (Hdate : match q_month q with
                  | Some m =>
                      if truthy (Some m) && negb (String.eqb m "all")
                      then exists lo hi, monthRange tza m = (Some lo, Some hi)
                                         /\ cf_date cf = Some (lo, hi)
                      else cf_date cf = None
                  | None => cf_date cf = None
                  end).
  { unfold castFilter, buildFilter in Hcf. cbn [f_date] in Hcf.
    destruct (q_month q) as [m|].
    - destruct (truthy (Some m) && negb (String.eqb m "all")).
      + destruct (monthRange tza m) as [[lo|] [hi|]]; inversion Hcf.
        exists lo, hi. split; reflexivity.
      + inversion Hcf. reflexivity.
    - inversion Hcf. reflexivity. }
  unfold matches, selects. rewrite Hid, Hown, Hcat.
  unfold buildFilter. cbn [f_category].
  rewrite !andb_true_iff, String.eqb_eq. split.
  - intros [[[_ Hu] Hd] Hc]. split; [exact Hu |]. split.
    + intros c Hq Hne Hall. rewrite Hq in Hc.
      destruct c as [| x r]; [contradiction |].
      cbn [truthy isEmpty negb andb] in Hc.
      destruct (String.eqb_spec (String x r) "all"); [contradiction |].
      now apply String.eqb_eq.
    + intros m lo hi Hq Hne Hall Hrange. rewrite Hq in Hdate.
      destruct m as [| x r]; [contradiction |].
      cbn [truthy isEmpty negb andb] in Hdate.
      destruct (String.eqb_spec (String x r) "all"); [contradiction |].
      destruct Hdate as (lo' & hi' & Hr & Hcd). rewrite Hcd in Hd.
      rewrite Hrange in Hr. injection Hr as <- <-.
      apply andb_prop in Hd as [H1 H2]. apply Z.leb_le in H1, H2. lia.
  - intros (Hu & Hc & Hd). repeat split; try assumption.
    + destruct (q_month q) as [m|]; [| now rewrite Hdate].
      destruct m as [| x r]; [now rewrite Hdate |].
      cbn [truthy isEmpty negb andb] in Hdate.
      destruct (String.eqb_spec (String x r) "all") as [E | E];
        [now rewrite Hdate |].
      destruct Hdate as (lo & hi & Hr & ->).
      specialize (Hd (String x r) lo hi eq_refl ltac:(discriminate) E Hr).
      apply andb_true_iff. rewrite !Z.leb_le. lia.
    + destruct (q_category q) as [c|]; [| reflexivity].
      destruct c as [| x r]; [reflexivity |].
      cbn [truthy isEmpty negb andb].
      destruct (String.eqb_spec (String x r) "all") as [E | E]; [reflexivity |].
      apply String.eqb_eq. apply (Hc (String x r)); [reflexivity | discriminate | exact E].
Qed.

Lemma dashboard_render (tza now : Z) (u : string) (q : Query) (s : Store)
  (v : IndexView) :
  getDashboard tza now (Some u) q s = Render v ->
  exists cf,
    castFilter (buildFilter tza u q) = Ok cf
    /\ v_transactions v = sortBy dateCreatedDesc (List.filter (matches cf) (docs s))
    /\ v_summary v = calculateSummary (v_transactions v)
    /\ v_query v = q.
Proof.
  unfold getDashboard, loginRedirect.
  destruct (isAuthenticated (Some u)) as [u'|] eqn:Hauth; [| discriminate].
  apply isAuthenticated_some in Hauth. subst u'.
  unfold find.
  destruct (castFilter (buildFilter tza u q)) as [cf|]; [| discriminate].
  cbn [bind].
  destruct (ObjectId u); [| discriminate].
  intros H. injection H as <-. exists cf. repeat split.
Qed.

(** X13.  A rendered dashboard lists exactly the stored transactions the
    request selects (those of the owner, of the category when the query
    names one, and within the date range when the query names a month),
    each as often as it is stored, with later dates first and, among
    equal dates, the transaction created later first. *)
Theorem dashboard_list (tza now : Z) (u : string) (q : Query) (s : Store)
  (v : IndexView) :
  getDashboard tza now (Some u) q s = Render v ->
  Permutation (shown tza u q s) (v_transactions v)
  /\ (forall d, In d (v_transactions v)
                <-> In d (docs s) /\ selects tza u q d)
  /\ Sorted newerFirst (v_transactions v).
Proof.
  intros H. apply dashboard_render in H as (cf & Hcf & Hv & _ & _).
  unfold shown. rewrite Hcf, Hv.
  pose proof (sortBy_perm dateCreatedDesc (List.filter (matches cf) (docs s)))
    as Hp.
  split; [exact Hp |]. split; [| apply sortBy_newerFirst].
  intros d. rewrite <- (selects_matches tza u q cf d Hcf), <- filter_In.
  split; intros Hin.
  - apply (Permutation_in _ (Permutation_sym Hp) Hin).
  - apply (Permutation_in _ Hp Hin).
Qed.

Lemma dashboard_list_witness :
  exists v,
    getDashboard 0 now1 (Some U) (monthFilter "2024-01") store4 = Render v
    /\ Permutation (shown 0 U (monthFilter "2024-01") store4) (v_transactions v)
    /\ Sorted newerFirst (v_transactions v).
Proof.
  eexists. split; [vm_compute; reflexivity |].
  match goal with
  | |- Permutation _ (v_transactions ?v) /\ _ =>
      destruct (dashboard_list 0 now1 U (monthFilter "2024-01") store4 v)
        as (H1 & _ & H3)
  end.
  - vm_compute. reflexivity.
  - split; assumption.
Defined.






(** ** The stages of the aggregation *)












(** ** The summary of several lists *)


(** ** From an entry of the monthly breakdown back to the filter *)

Lemma append_nil_r (s : string) : s ++ "" = s.
Proof. induction s as [| c r IH]; simpl; [reflexivity | now rewrite IH]. Qed.

Lemma digit_of_small (v : Z) :
  0 <= v < 10 -> digitVal (chr (Z.to_nat (48 + v))) = v.
Proof.
  intros Hv.
  assert (H : v = 0 \/ v = 1 \/ v = 2 \/ v = 3 \/ v = 4 \/ v = 5
              \/ v = 6 \/ v = 7 \/ v = 8 \/ v = 9) by lia.
  repeat (destruct H as [H | H]; [subst v; reflexivity |]).
  subst v; reflexivity.
Qed.

Lemma radixDigit_digit (c : ascii) :
  isDigit c = true -> radixDigit 10 c = Some (digitVal c).
Proof.
  intros H. unfold radixDigit. rewrite H. unfold digitVal.
  unfold isDigit in H. apply andb_prop in H as [H1 H2].
  apply Z.leb_le in H1, H2.
  destruct (Z.ltb_spec (code c - 48) 10); [reflexivity | lia].
Qed.

Lemma scanDigits_run (s rest : string) (acc : Z) (k : nat) :
  allDigits s = true ->
  scanDigits 10 (s ++ rest) acc k
  = scanDigits 10 rest (valueFrom acc s) (k + String.length s)%nat.
Proof.
  revert acc k. induction s as [| c r IH]; intros acc k Hs; simpl.
  - now rewrite Nat.add_0_r.
  - simpl in Hs. apply andb_prop in Hs as [Hc Hr].
    rewrite (radixDigit_digit c Hc), IH by exact Hr.
    f_equal. lia.
Qed.

Lemma digits_fuel_acc (f : nat) (n : Z) (acc : string) :
  digits_fuel f n acc = digits_fuel f n "" ++ acc.
Proof.
  revert n acc. induction f as [| f IH]; intros n acc; [reflexivity |].
  cbn [digits_fuel]. cbv zeta. destruct (n <? 10); [reflexivity |].
  rewrite (IH (n / 10) (String _ acc)), (IH (n / 10) (String _ "")).
  now rewrite append_assoc.
Qed.

Lemma valueFrom_app (a : Z) (s1 s2 : string) :
  valueFrom a (s1 ++ s2) = valueFrom (valueFrom a s1) s2.
Proof.
  revert a. induction s1 as [| c r IH]; intros a; simpl; [reflexivity |].
  apply IH.
Qed.

Lemma valueFrom_digits_fuel (f : nat) (n : Z) :
  0 <= n < 2 ^ Z.of_nat f -> valueFrom 0 (digits_fuel f n "") = n.
Proof.
  revert n. induction f as [| f IH]; intros n Hn.
  - simpl in *. lia.
  - cbn [digits_fuel]. cbv zeta.
    assert (Hmod : 0 <= n mod 10 < 10) by (apply Z.mod_pos_bound; lia).
    destruct (Z.ltb_spec n 10).
    + cbn [valueFrom]. rewrite digit_of_small by exact Hmod.
      rewrite Z.mod_small; lia.
    + rewrite digits_fuel_acc, valueFrom_app, IH.
      * cbn [valueFrom]. rewrite digit_of_small by exact Hmod.
        pose proof (Z.div_mod n 10). lia.
      * rewrite Nat2Z.inj_succ, Z.pow_succ_r in Hn by lia.
        split; [apply Z.div_pos; lia |].
        apply Z.div_lt_upper_bound; lia.
Qed.

(** Reading the decimal digits of a number gives the number back. *)
Lemma valueFrom_digits (n : Z) : 0 <= n -> valueFrom 0 (digits n) = n.
Proof.
  intros Hn. unfold digits. apply valueFrom_digits_fuel.
  split; [exact Hn |].
  rewrite Nat2Z.inj_succ, Z2Nat.id by apply Z.log2_nonneg.
  destruct (Z.eq_dec n 0) as [-> | Hne]; [reflexivity |].
  apply Z.log2_spec. lia.
Qed.

Lemma scanDigits_digits (n : Z) :
  0 <= n ->
  scanDigits 10 (digits n) 0 0 = (n, String.length (digits n), "").
Proof.
  intros Hn.
  rewrite <- (append_nil_r (digits n)) at 1.
  rewrite scanDigits_run by now apply digits_allDigits.
  now rewrite valueFrom_digits.
Qed.

Lemma isDigit_not_space (c : ascii) : isDigit c = true -> isSpace c = false.
Proof.
  unfold isDigit, isSpace. intros H. apply andb_prop in H as [H1 H2].
  apply Z.leb_le in H1, H2.
  destruct (Z.eqb_spec (code c) 32), (Z.leb_spec 9 (code c)),
    (Z.leb_spec (code c) 13); simpl; try reflexivity; lia.
Qed.

Lemma rev_string_acc (s acc : string) :
  rev_string s acc = rev_string s "" ++ acc.
Proof.
  revert acc. induction s as [| c r IH]; intros acc; simpl; [reflexivity |].
  rewrite (IH (String c acc)), (IH (String c "")).
  now rewrite append_assoc.
Qed.

Lemma rev_string_involutive (s : string) :
  rev_string (rev_string s "") "" = s.
Proof.
  assert (H : forall a b, rev_string (rev_string a b) "" = rev_string b "" ++ a).
  { intros a. induction a as [| c r IH]; intros b; simpl.
    - now rewrite append_nil_r.
    - rewrite IH. simpl. rewrite (rev_string_acc b (String c "")).
      now rewrite append_assoc. }
  now rewrite H.
Qed.

Lemma allDigits_rev (s acc : string) :
  allDigits s = true -> allDigits acc = true ->
  allDigits (rev_string s acc) = true.
Proof.
  revert acc. induction s as [| c r IH]; intros acc Hs Ha; simpl; [exact Ha |].
  simpl in Hs. apply andb_prop in Hs as [Hc Hr].
  apply IH; [exact Hr |]. simpl. now rewrite Hc, Ha.
Qed.

Lemma trimStart_digits (s : string) : allDigits s = true -> trimStart s = s.
Proof.
  destruct s as [| c r]; [reflexivity |]. simpl. intros H.
  apply andb_prop in H as [Hc _]. now rewrite (isDigit_not_space c Hc).
Qed.

Lemma trim_digits (s : string) : allDigits s = true -> trim s = s.
Proof.
  intros H. unfold trim, trimEnd.
  rewrite (trimStart_digits s H).
  rewrite trimStart_digits by (now apply allDigits_rev).
  apply rev_string_involutive.
Qed.

Lemma Qred_inject_Z (n : Z) : Qred (inject_Z n) = inject_Z n.
Proof.
  unfold Qred, inject_Z.
  generalize (Z.ggcd_gcd n 1) (Z.ggcd_correct_divisors n 1).
  destruct (Z.ggcd n 1) as [g [a b]]. simpl. intros Hg [Ha Hb].
  rewrite Z.gcd_1_r in Hg. subst g.
  rewrite Z.mul_1_l in Ha, Hb. now subst a b.
Qed.

Lemma digit_first_cases (c : ascii) (r : string) (A : Type) (x y z : A) :
  isDigit c = true ->
  match String c r with
  | String "-" _ => x
  | String "+" _ => y
  | _ => z
  end = z.
Proof.
  intros H.
  destruct c as [[] [] [] [] [] [] [] []]; try reflexivity;
    vm_compute in H; discriminate H.
Qed.

Lemma startsWith0x_digits (s : string) :
  allDigits s = true -> startsWith0x s = None.
Proof.
  destruct s as [| a [| c r]]; intros H.
  - reflexivity.
  - destruct a as [[] [] [] [] [] [] [] []]; reflexivity.
  - simpl in H. apply andb_prop in H as [_ H]. apply andb_prop in H as [Hc _].
    assert (Hx : Ascii.eqb c "x" || Ascii.eqb c "X" = false).
    { destruct (Ascii.eqb_spec c "x") as [-> |]; [discriminate |].
      destruct (Ascii.eqb_spec c "X") as [-> |]; [discriminate | reflexivity]. }
    destruct a as [[] [] [] [] [] [] [] []]; simpl; try reflexivity.
    now rewrite Hx.
Qed.

(** The conversion of the decimal digits of a number to a Number gives
    the number back. *)
Lemma stringToNumber_intToString (n : Z) :
  0 <= n -> stringToNumber (intToString n) = Some (inject_Z n).
Proof.
  intros Hn. unfold intToString.
  destruct (Z.ltb_spec n 0); [lia |].
  pose proof (digits_allDigits n Hn) as Hd.
  pose proof (digits_nonempty n) as Hlen.
  unfold stringToNumber. rewrite (trim_digits _ Hd).
  destruct (digits n) as [| c r] eqn:E; [simpl in Hlen; lia |].
  rewrite (startsWith0x_digits _ Hd).
  unfold scanDecimal.
  assert (Hc : isDigit c = true) by (simpl in Hd; now apply andb_prop in Hd).
  rewrite (digit_first_cases c r _ _ _ _ Hc).
  unfold scanUnsignedDecimal. rewrite <- E, (scanDigits_digits n Hn).
  pose proof (digits_nonempty n) as Hlen'.
  destruct (String.length (digits n)) as [| k] eqn:El; [lia |].
  cbn. rewrite Z.mul_1_r.
  change (Some (Qred (inject_Z n)) = Some (inject_Z n)).
  now rewrite (Qred_inject_Z n).
Qed.

Lemma split_on_run (sep : ascii) (s rest cur : string) :
  (forall c, isDigit c = true -> Ascii.eqb c sep = false) ->
  allDigits s = true ->
  split_on sep (s ++ rest) cur = split_on sep rest (rev_string s cur).
Proof.
  intros Hsep. revert cur. induction s as [| c r IH]; intros cur Hs; simpl;
    [reflexivity |].
  simpl in Hs. apply andb_prop in Hs as [Hc Hr].
  rewrite (Hsep c Hc). now apply IH.
Qed.

Lemma month_cases (m : Z) :
  1 <= m <= 12 ->
  m = 1 \/ m = 2 \/ m = 3 \/ m = 4 \/ m = 5 \/ m = 6 \/ m = 7 \/ m = 8
  \/ m = 9 \/ m = 10 \/ m = 11 \/ m = 12.
Proof. lia. Qed.

(** The key of a month splits at the hyphen into the digits of the year
    and the two digits of the month, and the month reads back. *)
Lemma monthKey_parts (y m : Z) :
  0 <= y -> 1 <= m <= 12 ->
  let key := intToString y ++ "-" ++ padStart (intToString m) 2 "0" in
  split key "-" = [intToString y; padStart (intToString m) 2 "0"]
  /\ parseInt (padStart (intToString m) 2 "0") = Some m.
Proof.
  intros Hy Hm. cbv zeta. unfold intToString at 1 3.
  destruct (Z.ltb_spec y 0); [lia |].
  unfold split. rewrite split_on_run.
  - rewrite <- (rev_string_involutive (digits y)) at 2.
    destruct (month_cases m Hm) as
      [E|[E|[E|[E|[E|[E|[E|[E|[E|[E|[E|E]]]]]]]]]]]; subst m;
      split; reflexivity.
  - intros c Hc. now apply isDigit_not_minus.
  - now apply digits_allDigits.
Qed.

Lemma newDate3_plain (tza y m d : Z) :
  100 <= y ->
  newDate3 tza (Some (inject_Z y)) (Some m) d
  = TimeClip (UTC tza (MakeDate (MakeDay y m d) 0)).
Proof.
  intros Hy. unfold newDate3, truncate, inject_Z. cbn [Qnum Qden].
  rewrite Z.quot_1_r.
  destruct (Z.leb_spec 0 y), (Z.leb_spec y 99); try lia; reflexivity.
Qed.

Lemma DayFromYear_bound (y : Z) :
  0 <= y <= 200001 -> -720000 <= DayFromYear y <= 73000000.
Proof.
  intros Hy. unfold DayFromYear. Z.div_mod_to_equations. lia.
Qed.

Lemma MakeDay_bound (y m d : Z) :
  100 <= y <= 200000 -> 0 <= m <= 12 -> 0 <= d <= 1 ->
  Z.abs (MakeDay y m d) <= 73001000.
Proof.
  intros Hy Hm Hd. unfold MakeDay.
  assert (Hq : m / 12 = 0 \/ m / 12 = 1) by (Z.div_mod_to_equations; lia).
  assert (Hr : 0 <= m mod 12 <= 11) by (Z.div_mod_to_equations; lia).
  pose proof (DayFromYear_bound (y + m / 12) ltac:(lia)) as Hb.
  assert (Hs : 0 <= monthStart (if isLeap (y + m / 12) then 1 else 0) (m mod 12)
               <= 366).
  { destruct (small_month_cases _ Hr) as
      [E|[E|[E|[E|[E|[E|[E|[E|[E|[E|[E|E]]]]]]]]]]]; rewrite E;
      cbn [monthStart]; destruct (isLeap (y + m / 12)); lia. }
  lia.
Qed.

Lemma digits_head (n : Z) :
  0 <= n -> exists c r, digits n = String c r /\ isDigit c = true.
Proof.
  intros Hn. pose proof (digits_allDigits n Hn) as Hd.
  pose proof (digits_nonempty n) as Hl.
  destruct (digits n) as [| c r]; [simpl in Hl; lia |].
  exists c, r. split; [reflexivity |].
  simpl in Hd. now apply andb_prop in Hd.
Qed.

(** X18.  An entry of the monthly breakdown leads back to its month: for
    a row of a year from 100 to 200000 and a month from 1 to 12, the
    label is the short name of the month and the year, and the month key,
    given as the month token of a dashboard request, produces the date
    range that begins with the first day of that month at local midnight
    and ends with its last day at local midnight. *)
Theorem monthKey_selects_month (tza : Z) (u : string) (row : MonthRow) :
  Z.abs tza <= msPerDay ->
  100 <= g_year row <= 200000 ->
  1 <= g_month row <= 12 ->
  let y := g_year row in
  let m := g_month row in
  let entry := toMonthEntry tza row in
  let first := MakeDate (MakeDay y (m - 1) 1) 0 in
  label entry = monthShort (m - 1) ++ " " ++ intToString y
  /\ fields first = (y, m - 1, 1)
  /\ f_date (buildFilter tza u {| q_month := Some (monthKey entry);
                                  q_category := None |})
     = Some (Some (UTC tza first),
             Some (UTC tza (first + (daysInMonth y m - 1) * msPerDay))).
Proof.
  intros Htz Hy Hm. cbv zeta.
  set (y := g_year row) in *. set (m := g_month row) in *.
  assert (Hf : YearFromTime (MakeDate (MakeDay y (m - 1) 1) 0) = y
               /\ MonthFromTime (MakeDate (MakeDay y (m - 1) 1) 0) = m - 1
               /\ DateFromTime (MakeDate (MakeDay y (m - 1) 1) 0) = 1).
  { destruct (fields_MakeDay y (m - 1) 1 0) as (H1 & H2 & H3 & _);
      [lia | unfold msPerDay; lia |].
    rewrite H1, H2, H3.
    rewrite Z.div_small, Z.mod_small by lia. repeat split. lia. }
  destruct Hf as (Hfy & Hfm & Hfd).
  pose proof (MakeDay_bound y (m - 1) 1 Hy ltac:(lia) ltac:(lia)) as Hb1.
  pose proof (MakeDay_bound y m 0 Hy ltac:(lia) ltac:(lia)) as Hb0.
  assert (Hstart : newDate3 tza (Some (inject_Z y)) (Some (m - 1)) 1
                   = Some (UTC tza (MakeDate (MakeDay y (m - 1) 1) 0))).
  { rewrite newDate3_plain by lia. apply TimeClip_in_range.
    unfold UTC, MakeDate, msPerDay in *. lia. }
  assert (Hend : newDate3 tza (Some (inject_Z y)) (Some m) 0
                 = Some (UTC tza (MakeDate (MakeDay y (m - 1) 1) 0
                                  + (daysInMonth y m - 1) * msPerDay))).
  { rewrite newDate3_plain by lia.
    replace (MakeDate (MakeDay y (m - 1) 1) 0 + (daysInMonth y m - 1) * msPerDay)
      with (MakeDate (MakeDay y m 0) 0)
      by (unfold daysInMonth, MakeDate;
          rewrite (MakeDay_date_shift y m 0); lia).
    apply TimeClip_in_range. unfold UTC, MakeDate, msPerDay in *. lia. }
  split; [| split].
  - unfold toMonthEntry. cbn [label]. fold y. fold m. rewrite Hstart.
    unfold toLocaleMonthYear.
    replace (LocalTime tza (UTC tza (MakeDate (MakeDay y (m - 1) 1) 0)))
      with (MakeDate (MakeDay y (m - 1) 1) 0) by (unfold LocalTime, UTC; lia).
    rewrite Hfy, Hfm. unfold yearString.
    destruct (Z.leb_spec y 0); [lia | reflexivity].
  - unfold fields. now rewrite Hfy, Hfm, Hfd.
  - unfold toMonthEntry. cbn [monthKey]. fold y. fold m.
    destruct (monthKey_parts y m ltac:(lia) Hm) as [Hsplit Hparse].
    cbv zeta in Hsplit.
    destruct (digits_head y ltac:(lia)) as (c & r & Hdig & Hc).
    set (key := intToString y ++ "-" ++ padStart (intToString m) 2 "0") in *.
    rewrite (buildFilter_month tza u
               {| q_month := Some key; q_category := None |} key eq_refl).
    + unfold monthRange. rewrite Hsplit. cbn [nth nth_error parseInt_opt].
      rewrite (stringToNumber_intToString y) by lia.
      rewrite Hparse. cbn [option_map]. now rewrite Hstart, Hend.
    + unfold key, intToString at 1. destruct (Z.ltb_spec y 0); [lia |].
      rewrite Hdig. discriminate.
    + unfold key, intToString at 1. destruct (Z.ltb_spec y 0); [lia |].
      rewrite Hdig. simpl. intros E. injection E as E _.
      rewrite E in Hc. discriminate.
Qed.

Lemma monthKey_selects_month_witness :
  label (toMonthEntry plus5h
           {| g_year := 2024; g_month := 2; totalIncome := 0;
              totalExpense := 50 |})
  = "Feb 2024"
  /\ f_date (buildFilter plus5h U
               {| q_month :=
                    Some (monthKey (toMonthEntry plus5h
                            {| g_year := 2024; g_month := 2;
                               totalIncome := 0; totalExpense := 50 |}));
                  q_category := None |})
     = Some (Some (utcMidnight 2024 2 1 - plus5h),
             Some (utcMidnight 2024 2 29 - plus5h)).
Proof.
  assert (H0 : Z.abs plus5h <= msPerDay) by (vm_compute; discriminate).
  pose proof (monthKey_selects_month plus5h U
                {| g_year := 2024; g_month := 2; totalIncome := 0;
                   totalExpense := 50 |} H0 ltac:(simpl; lia) ltac:(simpl; lia))
    as H.
  cbv zeta in H. destruct H as (H1 & _ & H3).
  split; [rewrite H1; reflexivity |].
  rewrite H3. vm_compute. reflexivity.
Defined.

(** ** The trailing window, up to the 28th *)

(** X19.  Up to the 28th of a month the start of the trailing window is,
    in the time of the server, the first day of the month 11 months
    before the month of the clock, at the time of day of the clock (not at
    midnight). *)
Theorem window_start_up_to_28th (tza now : Z) :
  Z.abs tza <= msPerDay ->
  Z.abs now <= 8000000000000000 ->
  DateFromTime (LocalTime tza now) <= 28 ->
  exists since,
    twelveMonthsAgo tza now = Some since
    /\ 12 * YearFromTime (LocalTime tza since)
       + MonthFromTime (LocalTime tza since)
       = 12 * YearFromTime (LocalTime tza now)
         + MonthFromTime (LocalTime tza now) - 11
    /\ DateFromTime (LocalTime tza since) = 1
    /\ TimeWithinDay (LocalTime tza since)
       = TimeWithinDay (LocalTime tza now).
Proof.
  intros Htz Hnow Hday.
  exists (Spec.sinceDate tza now + TimeWithinDay (LocalTime tza now)).
  split; [now apply twelveMonthsAgo_before_29th |].
  set (t := LocalTime tza now).
  destruct (time_decomposition t) as [_ Htod].
  destruct (MonthFromTime_range t) as [HM _].
  destruct (fields_MakeDay (YearFromTime t) (MonthFromTime t - 11) 1
              (TimeWithinDay t) ltac:(lia) Htod) as (Hy & Hm & Hd & Ht).
  replace (LocalTime tza (Spec.sinceDate tza now + TimeWithinDay t))
    with (MakeDate (MakeDay (YearFromTime t) (MonthFromTime t - 11) 1)
            (TimeWithinDay t))
    by (unfold Spec.sinceDate, t, LocalTime, UTC, MakeDate; lia).
  rewrite Hy, Hm, Hd, Ht. repeat split.
  pose proof (Z.div_mod (MonthFromTime t - 11) 12 ltac:(lia)). lia.
Qed.

Lemma window_start_up_to_28th_witness :
  exists since,
    twelveMonthsAgo plus5h now1 = Some since
    /\ 12 * YearFromTime (LocalTime plus5h since)
       + MonthFromTime (LocalTime plus5h since)
       = 12 * YearFromTime (LocalTime plus5h now1)
         + MonthFromTime (LocalTime plus5h now1) - 11
    /\ DateFromTime (LocalTime plus5h since) = 1
    /\ TimeWithinDay (LocalTime plus5h since)
       = TimeWithinDay (LocalTime plus5h now1).
Proof.
  apply window_start_up_to_28th; vm_compute; discriminate.
Defined.

(** ** The fields of an exported row *)

Lemma separators_plain (b : bool) (s r : string) :
  allPlain s = true -> separators b (s ++ r) = separators b r.
Proof.
  induction s as [| c s IH]; simpl; [reflexivity |].
  intros H. apply andb_prop in H as [Hc Hs]. unfold plain in Hc.
  apply andb_prop in Hc as [Hq Hk].
  apply negb_true_iff in Hq. apply negb_true_iff in Hk.
  rewrite Hq, Hk. cbn [andb]. now apply IH.
Qed.

Lemma separators_doubled (s r : string) :
  separators true (replace_dquotes s ++ r) = separators true r.
Proof.
  induction s as [| c s IH]; simpl; [reflexivity |].
  destruct (Ascii.eqb_spec c dquote) as [-> | Hc].
  - simpl. exact IH.
  - simpl. destruct (Ascii.eqb_spec c dquote); [contradiction |].
    rewrite andb_false_r. exact IH.
Qed.

Lemma separators_quoted (s r : string) :
  separators false (str1 dquote ++ replace_dquotes s ++ str1 dquote ++ r)
  = separators false r.
Proof.
  change (separators true (replace_dquotes s ++ str1 dquote ++ r)
          = separators false r).
  now rewrite separators_doubled.
Qed.

Lemma isDigit_plain (c : ascii) : isDigit c = true -> plain c = true.
Proof.
  intros H. unfold plain.
  destruct (Ascii.eqb_spec c dquote); [subst c; discriminate |].
  destruct (Ascii.eqb_spec c ","); [subst c; discriminate | reflexivity].
Qed.

Lemma allDigits_plain (s : string) : allDigits s = true -> allPlain s = true.
Proof.
  induction s as [| c s IH]; simpl; [reflexivity |].
  intros H. apply andb_prop in H as [Hc Hs].
  now rewrite (isDigit_plain c Hc), IH.
Qed.

Lemma pointThenTwo_plain (s : string) :
  pointThenTwo s = true -> allPlain s = true.
Proof.
  induction s as [| c s IH]; simpl; [discriminate |].
  destruct (Ascii.eqb_spec c ".") as [-> | Hc].
  - destruct s as [| a [| b [| x s]]]; try discriminate.
    intros H. apply andb_prop in H as [Ha Hb]. simpl.
    now rewrite (isDigit_plain a Ha), (isDigit_plain b Hb).
  - intros H. apply andb_prop in H as [Hd Hs].
    now rewrite (isDigit_plain c Hd), IH.
Qed.

Lemma twoDecimals_plain (s : string) :
  twoDecimals s = true -> allPlain s = true.
Proof.
  destruct s as [| c r]; [discriminate |].
  unfold twoDecimals.
  destruct (Ascii.eqb_spec c "-") as [-> | Hc].
  - destruct r as [| c' r']; [discriminate |].
    intros H. apply andb_prop in H as [Hd Hp]. simpl.
    now rewrite (isDigit_plain c' Hd), (pointThenTwo_plain r' Hp).
  - intros H. apply andb_prop in H as [Hd Hp]. simpl.
    now rewrite (isDigit_plain c Hd), (pointThenTwo_plain r Hp).
Qed.

(** A date as the export writes it holds one comma, outside quotes. *)
Lemma separators_formatDate (tza t : Z) (r : string) :
  separators false (formatDate tza t ++ r) = S (separators false r).
Proof.
  unfold formatDate, toLocaleDateString.
  set (l := LocalTime tza t).
  destruct (MonthFromTime_range l) as [HM HD].
  rewrite !append_assoc.
  rewrite separators_plain.
  2:{ destruct (small_month_cases _ HM) as
        [E|[E|[E|[E|[E|[E|[E|[E|[E|[E|[E|E]]]]]]]]]]]; rewrite E; reflexivity. }
  change (separators false (intToString (DateFromTime l)
                            ++ ", " ++ yearString (YearFromTime l) ++ r)
          = S (separators false r)).
  rewrite separators_plain.
  2:{ unfold intToString. destruct (Z.ltb_spec (DateFromTime l) 0); [lia |].
      apply allDigits_plain, digits_allDigits. lia. }
  change (S (separators false (yearString (YearFromTime l) ++ r))
          = S (separators false r)).
  rewrite separators_plain; [reflexivity |].
  unfold yearString, intToString.
  destruct (Z.leb_spec (YearFromTime l) 0);
    match goal with |- context [?a <? 0] => destruct (Z.ltb_spec a 0) end;
    try lia; apply allDigits_plain, digits_allDigits; lia.
Qed.

(** X20.  A row of the export has more fields than the header.  Commas
    outside double quotes separate the fields of a line; the header has
    five of them, and the row of a transaction that satisfies the
    invariants of the schema, with an amount below 10^21, has seven:
    both dates are written without quotes and hold a comma after the
    day. *)
Theorem export_row_separators (tza : Z) (t : Transaction) :
  invariant t = true ->
  (amount t < inject_Z pow10_21)%Q ->
  separators false csvHeader = 5%nat
  /\ separators false (csvRow tza t) = 7%nat.
Proof.
  intros Hinv Hlt. split; [reflexivity |].
  unfold invariant in Hinv. apply andb_prop in Hinv as [Hmin Hty].
  apply Qle_bool_iff in Hmin.
  assert (Habs : (Qabs (amount t) < inject_Z pow10_21)%Q).
  { rewrite Qabs_pos; [exact Hlt |].
    apply Qle_trans with minAmount; [discriminate | exact Hmin]. }
  pose proof (twoDecimals_plain _ (toFixed2_twoDecimals _ Habs)) as Hamount.
  assert (Htype : allPlain (toUpperCase (type t)) = true).
  { unfold inEnum, typeEnum in Hty. cbn [existsb] in Hty.
    rewrite orb_false_r in Hty. apply orb_prop in Hty as [E | E];
      apply String.eqb_eq in E; rewrite E; reflexivity. }
  rewrite csvRow_fields.
  rewrite separators_formatDate.
  change (S (S (separators false
                  (toUpperCase (type t) ++ "," ++ str1 dquote
                   ++ replace_dquotes (category t) ++ str1 dquote ++ ","
                   ++ toFixed2 (amount t) ++ "," ++ str1 dquote
                   ++ replace_dquotes (note t) ++ str1 dquote ++ ","
                   ++ formatDate tza (createdAt t) ++ str1 newline)))
          = 7%nat).
  rewrite (separators_plain _ _ _ Htype).
  change (S (S (S (separators false
                  (str1 dquote
                   ++ replace_dquotes (category t) ++ str1 dquote ++ ","
                   ++ toFixed2 (amount t) ++ "," ++ str1 dquote
                   ++ replace_dquotes (note t) ++ str1 dquote ++ ","
                   ++ formatDate tza (createdAt t) ++ str1 newline))))
          = 7%nat).
  rewrite separators_quoted.
  change (S (S (S (S (separators false
                  (toFixed2 (amount t) ++ "," ++ str1 dquote
                   ++ replace_dquotes (note t) ++ str1 dquote ++ ","
                   ++ formatDate tza (createdAt t) ++ str1 newline)))))
          = 7%nat).
  rewrite (separators_plain _ _ _ Hamount).
  change (S (S (S (S (S (separators false
                  (str1 dquote
                   ++ replace_dquotes (note t) ++ str1 dquote ++ ","
                   ++ formatDate tza (createdAt t) ++ str1 newline))))))
          = 7%nat).
  rewrite separators_quoted.
  change (S (S (S (S (S (S (separators false
                  (formatDate tza (createdAt t) ++ str1 newline)))))))
          = 7%nat).
  rewrite separators_formatDate. reflexivity.
Qed.

Lemma export_row_separators_witness :
  separators false csvHeader = 5%nat
  /\ separators false
       (csvRow plus5h (tx 0 U "expense" 50 (utcMidnight 2024 2 1))) = 7%nat.
Proof.
  apply export_row_separators; vm_compute; reflexivity.
Defined.
